(** * QA dashboard for course development: the data pipeline

    A shallow embedding of
    [streamlit_qa_dashboard_course_development_starter_app.py]:
    the loader ([load_data], [example_data]), the sidebar filters, the
    free-text search and the aggregates behind the charts.  Widgets and
    chart rendering are left out; what a chart receives is kept. *)

From Stdlib Require Import QArith.
From Stdlib Require Import Ascii String.
From stdpp Require Import gmap strings list fin_maps pretty sorting.

Open Scope Z_scope.

(** ** Values and Python exceptions *)

(** One cell of a pandas column.  A timestamp is its number of
    nanoseconds since the epoch (pandas' resolution); [VNaN] is the
    missing value (NaN, NaT, None). *)
Inductive value :=
  | VStr (s : string)
  | VInt (z : Z)
  | VBool (b : bool)
  | VTime (ns : Z)
  | VNaN.

#[global] Instance value_eq_dec : EqDecision value.
Proof. solve_decision. Defined.

Inductive exn :=
  | KeyError (key : string)
  | ValueError (what : list string)
  | AttributeError (what : string)
  | TypeError (what : string)
  | IndexError.

Inductive result (A : Type) :=
  | Ok (a : A)
  | Raise (e : exn).
Arguments Ok {A} a.
Arguments Raise {A} e.

#[global] Instance result_ret : MRet result := λ A a, Ok a.
#[global] Instance result_bind : MBind result := λ A B f m,
  match m with Ok a => f a | Raise e => Raise e end.
#[global] Instance result_fmap : FMap result := λ A B f m,
  match m with Ok a => Ok (f a) | Raise e => Raise e end.

(** ** Data frames *)

(** A frame keeps its column labels in order, the categories of the
    columns of categorical dtype, and its rows; a row maps a column
    label to the cell. *)
Record DataFrame := {
  columns : list string;
  categories : gmap string (list value);
  rows : list (gmap string value)
}.

(** [df[c]]: the cells of column [c]; [KeyError] when there is no such
    column. *)
Definition cell (c : string) (r : gmap string value) : value :=
  default VNaN (r !! c).

Definition col (df : DataFrame) (c : string) : result (list value) :=
  if decide (c ∈ columns df) then Ok (cell c <$> rows df)
  else Raise (KeyError c).

(** [s.isin(values)] *)
Definition isin (s : list value) (values : list value) : list bool :=
  (λ v, bool_decide (v ∈ values)) <$> s.

(** [df[mask]]: the rows whose mask entry is true, in order. *)
Fixpoint keep {A} (l : list A) (mask : list bool) : list A :=
  match l, mask with
  | x :: l, b :: mask => if b then x :: keep l mask else keep l mask
  | _, _ => []
  end.

Definition getitem_mask (df : DataFrame) (mask : list bool) : DataFrame :=
  {| columns := columns df; categories := categories df;
     rows := keep (rows df) mask |}.

(** ** The sidebar filters (lines 80-85) *)

Record Selection := {
  course : list value;
  unit_ : list value;
  status : list value;
  severity : list value;
  assignee : list value
}.

(** [if sel: fdf = fdf[fdf[c].isin(sel)]] *)
Definition filter_by (c : string) (sel : list value) (fdf : DataFrame)
    : result DataFrame :=
  match sel with
  | [] => Ok fdf
  | _ => s ← col fdf c; Ok (getitem_mask fdf (isin s sel))
  end.

Definition apply_filters (sel : Selection) (df : DataFrame) : result DataFrame :=
  fdf ← filter_by "course_name" (course sel) df;
  fdf ← filter_by "unit" (unit_ sel) fdf;
  fdf ← filter_by "status" (status sel) fdf;
  fdf ← filter_by "severity" (severity sel) fdf;
  filter_by "assignee" (assignee sel) fdf.

(** ** The detail explorer's search (lines 170-177) *)

(** [str.lower()] on the letters A-Z; other bytes are kept. *)
Definition lower_ascii (a : ascii) : ascii :=
  let n := nat_of_ascii a in
  if ((65 <=? n)%nat && (n <=? 90)%nat)%bool then ascii_of_nat (n + 32) else a.

Fixpoint lower (s : string) : string :=
  match s with
  | EmptyString => EmptyString
  | String a s => String (lower_ascii a) (lower s)
  end.

(** [sub in s] *)
Fixpoint contains (sub s : string) : bool :=
  String.prefix sub s ||
  match s with
  | EmptyString => false
  | String _ s' => contains sub s'
  end.

(** [str(v)] of a cell *)
Definition str (v : value) : string :=
  match v with
  | VStr s => s
  | VInt z => pretty z
  | VBool true => "True"
  | VBool false => "False"
  | VTime ns => pretty ns
  | VNaN => "nan"
  end.

(** [r[c]] on a row of a frame with the given columns *)
Definition row_get (cols : list string) (r : gmap string value) (c : string)
    : result value :=
  if decide (c ∈ cols) then Ok (cell c r) else Raise (KeyError c).

(** The lambda of line 174; [or] evaluates its right operand only when
    the left one is false. *)
Definition search_hit (cols : list string) (q_lower : string)
    (r : gmap string value) : result bool :=
  v ← row_get cols r "issue_id";
  if contains q_lower (lower (str v)) then Ok true else
  v ← row_get cols r "notes";
  if contains q_lower (lower (str v)) then Ok true else
  v ← row_get cols r "item_id";
  Ok (contains q_lower (lower (str v))).

(** [temp.apply(f, axis=1)] *)
Fixpoint apply_rows {A B} (f : A → result B) (l : list A) : result (list B) :=
  match l with
  | [] => Ok []
  | x :: l => b ← f x; bs ← apply_rows f l; Ok (b :: bs)
  end.

Definition search (q : string) (fdf : DataFrame) : result DataFrame :=
  match q with
  | EmptyString => Ok fdf
  | _ =>
    let q_lower := lower q in
    mask ← apply_rows (search_hit (columns fdf) q_lower) (rows fdf);
    Ok (getitem_mask fdf mask)
  end.

(** ** What the filters let through *)

(** One filter's test on a row: an empty selection lets every row pass. *)
Definition passes_one (c : string) (sel : list value) (r : gmap string value) : bool :=
  match sel with
  | [] => true
  | _ => bool_decide (cell c r ∈ sel)
  end.

(** The selections by column, as lines 81-85 pair them. *)
Definition picks (sel : Selection) : list (string * list value) :=
  [("course_name", course sel); ("unit", unit_ sel); ("status", status sel);
   ("severity", severity sel); ("assignee", assignee sel)].

Definition passes (sel : Selection) (r : gmap string value) : bool :=
  forallb (λ p, passes_one p.1 p.2 r) (picks sel).

Definition filter_columns : list string :=
  ["course_name"; "unit"; "status"; "severity"; "assignee"].


(** What the claim asks of a returned row: its cell lies in every
    selection that is not empty. *)
Definition within (sel : Selection) (r : gmap string value) : Prop :=
  ∀ c vs, (c, vs) ∈ picks sel → vs ≠ [] → cell c r ∈ vs.

(** A small frame to run the pipeline on. *)
Definition demo_row (id course_ unit' status' sev who : string)
    (age sla : Z) : gmap string value :=
  list_to_map
    [("issue_id", VStr id); ("course_name", VStr course_); ("unit", VStr unit');
     ("item_id", VStr "ITEM-7"); ("item_type", VStr "Quiz");
     ("status", VStr status'); ("severity", VStr sev);
     ("reporter", VStr "QA"); ("assignee", VStr who);
     ("created_at", VTime 0); ("updated_at", VTime 0);
     ("notes", VStr "typo"); ("sla_days", VInt sla); ("age_days", VInt age);
     ("sla_breached", VBool (bool_decide (sla < age)))].

Definition demo_frame : DataFrame :=
  {| columns := ["issue_id"; "course_name"; "unit"; "item_id"; "item_type";
                 "status"; "severity"; "reporter"; "assignee"; "created_at";
                 "updated_at"; "notes"; "sla_days"; "age_days"; "sla_breached"];
     categories := ∅;
     rows := [demo_row "ISSUE-1000" "Course 1" "Unit 1" "Open" "High" "Alex" 7 5;
              demo_row "ISSUE-1001" "Course 2" "Unit 1" "Closed" "Low" "Sam" 3 15;
              demo_row "ISSUE-1002" "Course 1" "Unit 2" "Open" "Low" "Alex" 1 15] |}.

Definition demo_selection : Selection :=
  {| course := [VStr "Course 1"]; unit_ := []; status := [VStr "Open"];
     severity := []; assignee := [] |}.

Definition search_columns : list string := ["issue_id"; "notes"; "item_id"].

(** ** Column assignment and element-wise operations *)

(** [df[c] = s]: replaces column [c], or appends it when there is no such
    column; [cats] is the category list when [s] is categorical. *)
Definition setitem (c : string) (s : list value) (cats : option (list value))
    (df : DataFrame) : DataFrame :=
  {| columns := if decide (c ∈ columns df) then columns df else columns df ++ [c];
     categories := match cats with
                   | Some cs => <[c := cs]> (categories df)
                   | None => delete c (categories df)
                   end;
     rows := zip_with (λ r v, <[c := v]> r) (rows df) s |}.

(** [s.astype(dtype)] for a categorical dtype: a cell outside the
    categories becomes missing. *)
Definition as_category (cats : list value) (v : value) : value :=
  if decide (v ∈ cats) then v else VNaN.

(** [s.map(d)] for a dict with string keys *)
Definition map_dict (d : gmap string Z) (v : value) : value :=
  match v with
  | VStr s => match d !! s with Some z => VInt z | None => VNaN end
  | _ => VNaN
  end.

Definition ns_per_day : Z := 86400 * 1000000000.

(** [Timestamp.normalize()]: midnight of the same day *)
Definition normalize (t : Z) : Z := t - t `mod` ns_per_day.

(** [timedelta(days=d)] *)
Definition timedelta (days : Z) : Z := days * ns_per_day.

(** [(now - s).dt.days] on one cell; the days of a timedelta are its
    floor. *)
Definition days_since (now : Z) (v : value) : value :=
  match v with
  | VTime t => VInt ((now - t) `div` ns_per_day)
  | _ => VNaN
  end.

(** [a > b] on one pair of cells; a comparison with a missing value is
    false. *)
Definition gt (a b : value) : value :=
  match a, b with
  | VInt x, VInt y => VBool (bool_decide (y < x))
  | _, _ => VBool false
  end.

(** ** The random generator *)

(** numpy's [Generator] is not part of the repository: it is taken as a
    state with the two draws the code makes.  [integers lo hi] is
    [rng.integers(lo, hi)]; [pick n p] is the index [rng.choice] draws
    among [n] entries, with weights [p] when given. *)
Record Generator := {
  rng : Type;
  default_rng : Z → rng;
  integers : Z → Z → rng → Z * rng;
  pick : nat → option (list Q) → rng → nat * rng
}.

(** What numpy guarantees of the two draws. *)
Record GeneratorOk (G : Generator) : Prop := {
  integers_range : ∀ lo hi s, lo < hi → lo ≤ (integers G lo hi s).1 < hi;
  pick_range : ∀ n p s, (0 < n)%nat → ((pick G n p s).1 < n)%nat
}.

(** Code that draws: the generator's state is threaded, an exception
    ends the run. *)
Definition Draw (G : Generator) (A : Type) : Type := rng G → result (A * rng G).

#[global] Instance draw_ret G : MRet (Draw G) := λ A a s, Ok (a, s).
#[global] Instance draw_bind G : MBind (Draw G) := λ A B f m s,
  match m s with Ok (a, s') => f a s' | Raise e => Raise e end.

Definition draw_integers (G : Generator) (lo hi : Z) : Draw G Z :=
  λ s, Ok (integers G lo hi s).

(** [rng.choice(a, p=p)]; numpy raises [ValueError] on an empty [a]. *)
Definition choice {A} (G : Generator) (a : list A) (p : option (list Q))
    : Draw G A :=
  λ s, match a with
       | [] => Raise (ValueError ["a"])
       | _ => let '(i, s') := pick G (length a) p s in
              match a !! i with
              | Some x => Ok (x, s')
              | None => Raise IndexError
              end
       end.

Fixpoint for_each {G A B} (f : A → Draw G B) (l : list A) : Draw G (list B) :=
  match l with
  | [] => mret []
  | x :: l => b ← f x; bs ← for_each f l; mret (b :: bs)
  end.

(** ** The synthetic table (lines 27-65) *)

Definition units : list string := (λ i, "Unit " +:+ pretty (i + 1)%nat) <$> seq 0 8.
Definition item_types : list string := ["Video"; "Quiz"; "Reading"; "Assignment"; "Slide"].
Definition statuses : list string := ["Open"; "In Progress"; "Fixed"; "Verified"; "Closed"].
Definition severities : list string := ["Low"; "Medium"; "High"; "Critical"].
Definition reporters : list string := ["QA"; "Author"; "Reviewer"; "Student"].
Definition assignees : list string := ["Alex"; "Sam"; "Riley"; "Jordan"; "Kim"].
Definition notes_texts : list string :=
  ["typo"; "broken link"; "layout"; "audio"; "timing"; "grading"; "accessibility"].
Definition browsers : list string := ["Chrome"; "Safari"; "Firefox"; "Edge"].
Definition environments : list string := ["Staging"; "Production"].

Definition status_p : list Q := [25 # 100; 25 # 100; 2 # 10; 2 # 10; 1 # 10]%Q.
Definition severity_p : list Q := [45 # 100; 35 # 100; 15 # 100; 5 # 100]%Q.

Definition sla_map : gmap string Z :=
  list_to_map [("Critical", 2); ("High", 5); ("Medium", 10); ("Low", 15)].

(** The keys of the dict of lines 42-57, in order. *)
Definition record_keys : list string :=
  ["issue_id"; "course_name"; "unit"; "item_id"; "item_type"; "status";
   "severity"; "reporter"; "assignee"; "created_at"; "updated_at"; "notes";
   "browser"; "environment"].

(** One turn of the loop of lines 38-57. *)
Definition example_row (G : Generator) (today : Z) (courses : list string)
    (i : nat) : Draw G (gmap string value) :=
  d ← draw_integers G 0 40;
  let created := today - timedelta d in
  d' ← draw_integers G 0 15;
  let updated := created + timedelta d' in
  status' ← choice G statuses (Some status_p);
  course' ← choice G courses None;
  unit' ← choice G units None;
  item ← draw_integers G 1 9999;
  item_type ← choice G item_types None;
  severity' ← choice G severities (Some severity_p);
  reporter ← choice G reporters None;
  assignee' ← choice G assignees None;
  notes ← choice G notes_texts None;
  browser ← choice G browsers None;
  environment ← choice G environments None;
  mret (list_to_map
    [("issue_id", VStr ("ISSUE-" +:+ pretty (1000 + i)%nat));
     ("course_name", VStr course');
     ("unit", VStr unit');
     ("item_id", VStr ("ITEM-" +:+ pretty item));
     ("item_type", VStr item_type);
     ("status", VStr status');
     ("severity", VStr severity');
     ("reporter", VStr reporter);
     ("assignee", VStr assignee');
     ("created_at", VTime created);
     ("updated_at", VTime updated);
     ("notes", VStr notes);
     ("browser", VStr browser);
     ("environment", VStr environment)]).

(** [pd.DataFrame(rows)] for dicts that all have the keys [keys]: with no
    dict at all the frame has no column. *)
Definition from_records (keys : list string) (rs : list (gmap string value))
    : DataFrame :=
  {| columns := match rs with [] => [] | _ => keys end;
     categories := ∅;
     rows := rs |}.

(** Lines 59-64: the status dtype and the derived columns. *)
Definition derive (now : Z) (df : DataFrame) : result DataFrame :=
  s ← col df "status";
  let df := setitem "status" (as_category (VStr <$> statuses) <$> s)
              (Some (VStr <$> statuses)) df in
  s ← col df "severity";
  let df := setitem "sla_days" (map_dict sla_map <$> s) None df in
  s ← col df "created_at";
  let df := setitem "age_days" (days_since now <$> s) None df in
  a ← col df "age_days";
  b ← col df "sla_days";
  Ok (setitem "sla_breached" (zip_with gt a b) None df).

(** [example_data(n_courses, n_rows)].  The clock is read twice:
    [clock0] is [pd.Timestamp.today()] at line 29, [clock1] the one at
    line 63. *)
Definition example_data (G : Generator) (clock0 clock1 : Z)
    (n_courses n_rows : nat) : result DataFrame :=
  let today := normalize clock0 in
  let courses := (λ i, "Course " +:+ pretty (i + 1)%nat) <$> seq 0 n_courses in
  '(recs, _) ← for_each (example_row G today courses) (seq 0 n_rows)
                 (default_rng G 42);
  derive clock1 (from_records record_keys recs).

(** [@st.cache_data]: a result is stored under the call's arguments and
    handed back to later calls with the same arguments; a call that
    raises stores nothing. *)
Definition cache_data {K V} `{Countable K} (f : K → result V)
    (cache : gmap K V) (k : K) : result V * gmap K V :=
  match cache !! k with
  | Some v => (Ok v, cache)
  | None => match f k with
            | Ok v => (Ok v, <[k := v]> cache)
            | Raise e => (Raise e, cache)
            end
  end.

Definition example_data_cached (G : Generator) (clock0 clock1 : Z)
    (cache : gmap (nat * nat) DataFrame) (n_courses n_rows : nat)
    : result DataFrame * gmap (nat * nat) DataFrame :=
  cache_data (λ k, example_data G clock0 clock1 k.1 k.2) cache (n_courses, n_rows).

(** A generator to run the code with: a linear congruential one. *)
Definition lcg_next (s : Z) : Z := (s * 1103515245 + 12345) `mod` 2147483648.

Definition lcg : Generator :=
  {| rng := Z;
     default_rng := λ seed, seed;
     integers := λ lo hi s, (lo + s `mod` (hi - lo), lcg_next s);
     pick := λ n _ s, (Z.to_nat (s `mod` Z.of_nat n), lcg_next s) |}.

(** ** Reading an upload (line 16) *)

(** One field of the uploaded file: [raw] is the cell as [pd.read_csv]
    types it when no date parsing is asked for (text, integer, boolean,
    or missing for an empty field); [stamp] is the timestamp pandas' date
    parser reads from the field, if it reads one.  The tokenizer and the
    date parser are pandas', not the repository's. *)
Record field := { raw : value; stamp : option Z }.

#[global] Instance field_eq_dec : EqDecision field.
Proof. solve_decision. Defined.

(** An uploaded file after tokenizing: the header's labels, which pandas
    makes distinct, and one list of fields per line, as long as the
    header. *)
Record CsvFile := { header : list string; lines : list (list field) }.

Definition empty_field : field := {| raw := VNaN; stamp := None |}.

(** The fields of column [c], top to bottom. *)
Definition column_fields (file : CsvFile) (c : string) : list field :=
  (λ l, default empty_field
          ((list_to_map (zip (header file) l) : gmap string field) !! c))
    <$> lines file.

(** The date parser on one field: an empty field is a missing
    timestamp. *)
Definition read_date (f : field) : option value :=
  match raw f with
  | VNaN => Some VNaN
  | _ => VTime <$> stamp f
  end.

(** A column named in [parse_dates] becomes a timestamp column when every
    field parses; otherwise pandas returns it unaltered. *)
Definition parse_date_column (file : CsvFile) (df : DataFrame) (c : string)
    : DataFrame :=
  match mapM read_date (column_fields file c) with
  | Some ts => setitem c ts None df
  | None => df
  end.

(** [pd.read_csv(file, parse_dates=parse_dates)]: pandas raises
    [ValueError] naming the labels of [parse_dates] that the header does
    not have. *)
Definition read_csv (file : CsvFile) (parse_dates : list string)
    : result DataFrame :=
  match filter (λ c, c ∉ header file) parse_dates with
  | [] =>
    let df := {| columns := header file; categories := ∅;
                 rows := (λ l, list_to_map (zip (header file) (raw <$> l)))
                           <$> lines file |} in
    Ok (foldl (parse_date_column file) df parse_dates)
  | missing => Raise (ValueError missing)
  end.

(** ** [load_data] (lines 15-24) *)

(** [str.strip()] for the ASCII white space. *)
Definition is_space (a : ascii) : bool :=
  let n := nat_of_ascii a in
  ((9 <=? n)%nat && (n <=? 13)%nat) || ((28 <=? n)%nat && (n <=? 32)%nat).

Fixpoint lstrip (s : string) : string :=
  match s with
  | String a s' => if is_space a then lstrip s' else s
  | EmptyString => EmptyString
  end.

Fixpoint rstrip (s : string) : string :=
  match s with
  | String a s' =>
    match rstrip s' with
    | EmptyString => if is_space a then EmptyString else String a EmptyString
    | t => String a t
    end
  | EmptyString => EmptyString
  end.

Definition strip (s : string) : string := rstrip (lstrip s).

Definition normalize_name (c : string) : string := lower (strip c).

(** [df.columns = [f(c) for c in df.columns]] *)
Definition rename_columns (f : string → string) (df : DataFrame) : DataFrame :=
  {| columns := f <$> columns df;
     categories := list_to_map
       (omap (λ c, (λ cs, (f c, cs)) <$> categories df !! c) (columns df));
     rows := (λ r, list_to_map ((λ c, (f c, cell c r)) <$> columns df))
               <$> rows df |}.

(** The categories [astype("category")] infers: the distinct values that
    are not missing, sorted when they are of one kind, else in their
    order of appearance. *)
Fixpoint unique (l : list value) : list value :=
  match l with
  | [] => []
  | v :: l => v :: filter (λ w, w ≠ v) (unique l)
  end.

Definition value_leb (a b : value) : bool :=
  match a, b with
  | VStr x, VStr y => String.leb x y
  | VInt x, VInt y => x <=? y
  | VBool x, VBool y => implb x y
  | VTime x, VTime y => x <=? y
  | _, _ => true
  end.

Definition value_le (a b : value) : Prop := value_leb a b = true.

#[global] Instance value_le_dec : RelDecision value_le.
Proof. intros a b. unfold value_le. apply _. Defined.

Definition same_kind (a b : value) : bool :=
  match a, b with
  | VStr _, VStr _ | VInt _, VInt _ | VBool _, VBool _ | VTime _, VTime _ => true
  | _, _ => false
  end.

Definition infer_categories (s : list value) : list value :=
  let u := unique (filter (λ v, v ≠ VNaN) s) in
  match u with
  | [] => []
  | v :: _ =>
    if forallb (same_kind v) u then merge_sort value_le u
    else u
  end.

(** [df[c] = df[c].astype("category")]: a column that is categorical
    already keeps its dtype. *)
Definition coerce_category (df : DataFrame) (c : string) : DataFrame :=
  if decide (c ∈ columns df) then
    match categories df !! c with
    | Some _ => df
    | None =>
      let s := cell c <$> rows df in
      setitem c s (Some (infer_categories s)) df
    end
  else df.

Definition cat_cols : list string :=
  ["status"; "severity"; "item_type"; "course_name"; "assignee"; "reporter"].

(** [load_data(file)]; without a file it calls [example_data()], whose
    defaults are 3 courses and 250 rows. *)
Definition load_data (G : Generator) (clock0 clock1 : Z) (file : option CsvFile)
    : result DataFrame :=
  df ← match file with
       | Some f => read_csv f ["created_at"; "updated_at"]
       | None => example_data G clock0 clock1 3 250
       end;
  let df := rename_columns normalize_name df in
  Ok (foldl coerce_category df cat_cols).

(** An upload with the eleven required columns of the data dictionary
    and nothing else. *)
Definition text (s : string) : field := {| raw := VStr s; stamp := None |}.
Definition date (s : string) (ns : Z) : field := {| raw := VStr s; stamp := Some ns |}.

Definition required_columns : list string :=
  ["issue_id"; "course_name"; "unit"; "item_id"; "item_type"; "status";
   "severity"; "reporter"; "assignee"; "created_at"; "updated_at"].

Definition plain_upload : CsvFile :=
  {| header := required_columns;
     lines := [[text "ISSUE-1"; text "Course 1"; text "Unit 1"; text "ITEM-1";
                text "Quiz"; text "Open"; text "Critical"; text "QA";
                text "Alex"; date "2024-01-01" (19723 * ns_per_day);
                date "2024-01-02" (19724 * ns_per_day)]] |}.


(** ** The aggregates (lines 90-156) *)

(** *** KPI cards (lines 90-94) *)

Definition count_true (mask : list bool) : nat := length (filter (λ b, b = true) mask).

(** [s == v] *)
Definition eq_scalar (v : value) (s : list value) : list bool :=
  (λ w, bool_decide (w = v)) <$> s.

Definition open_values : list value := [VStr "Open"; VStr "In Progress"].

Definition open_mask (fdf : DataFrame) : result (list bool) :=
  s ← col fdf "status"; Ok (isin s open_values).

Record Kpi := {
  open_issues : nat;
  verified : nat;
  closed : nat;
  critical_open : nat
}.

Definition kpi (fdf : DataFrame) : result Kpi :=
  mask ← open_mask fdf;
  st1 ← col fdf "status";
  st2 ← col fdf "status";
  sev ← col fdf "severity";
  Ok {| open_issues := count_true mask;
        verified := count_true (eq_scalar (VStr "Verified") st1);
        closed := count_true (eq_scalar (VStr "Closed") st2);
        critical_open :=
          count_true (zip_with andb (eq_scalar (VStr "Critical") sev) mask) |}.

(** *** SLA overview (lines 103-107) *)

(** The cells of a boolean column; a column holding anything else has no
    [&] with a mask and no mean. *)
Definition as_bools (c : string) (s : list value) : result (list bool) :=
  match mapM (λ v, match v with VBool b => Some b | _ => None end) s with
  | Some bs => Ok bs
  | None => Raise (TypeError c)
  end.

(** The keys [groupby(c)] makes groups for: every category of a
    categorical column, seen or not; the values seen, otherwise. *)
Definition group_keys (fdf : DataFrame) (c : string) : list value :=
  match categories fdf !! c with
  | Some cs => cs
  | None => infer_categories (cell c <$> rows fdf)
  end.

(** [mean()] of booleans; an empty group has no mean (NaN). *)
Definition mean_bool (bs : list bool) : option Q :=
  match bs with
  | [] => None
  | _ => Some (Z.of_nat (count_true bs) # Pos.of_nat (length bs))
  end.

(** [round(1)], on exact fractions: to the nearest tenth, a tie to the
    even one. *)
Definition round1 (q : Q) : Q :=
  let x := (q * 10)%Q in
  let f := (Qnum x `div` Zpos (Qden x)) in
  let twice_rest := 2 * (Qnum x - f * Zpos (Qden x)) in
  let up := if decide (twice_rest < Zpos (Qden x)) then false
            else if decide (Zpos (Qden x) < twice_rest) then true
            else negb (Z.even f) in
  ((if up then f + 1 else f) # 10)%Q.

Record SlaRow := {
  sla_severity : value;
  sla_mean : option Q;
  breach_rate : option Q
}.

Definition sla_overview (fdf : DataFrame) (mask : list bool)
    : result (nat * list SlaRow) :=
  b ← col fdf "sla_breached";
  bs ← as_bools "sla_breached" b;
  let sla_breaches := count_true (zip_with andb bs mask) in
  let open := getitem_mask fdf mask in
  _ ← col open "severity";
  b ← col open "sla_breached";
  _ ← as_bools "sla_breached" b;
  Ok (sla_breaches,
      (λ k,
         let group := filter (λ r, cell "severity" r = k) (rows open) in
         let m := mean_bool ((λ r, bool_decide (cell "sla_breached" r = VBool true))
                               <$> group) in
         {| sla_severity := k; sla_mean := m;
            breach_rate := (λ q, round1 (q * 100)%Q) <$> m |})
      <$> group_keys open "severity").

(** *** Issues created per day (lines 121-124) *)

(** [s.dt.date]: only a timestamp column has [.dt]. *)
Definition dt_date (c : string) (s : list value) : result (list (option Z)) :=
  match mapM (λ v, match v with
                   | VTime t => Some (Some (t `div` ns_per_day))
                   | VNaN => Some None
                   | _ => None
                   end) s with
  | Some ds => Ok ds
  | None => Raise (AttributeError c)
  end.

(** [groupby("created_date").size()]: one count per day seen, the days
    in increasing order. *)
Definition created_daily (fdf : DataFrame) : result (list (Z * nat)) :=
  s ← col fdf "created_at";
  ds ← dt_date "created_at" s;
  let days := omap id ds in
  Ok ((λ d, (d, length (filter (λ d', d' = d) days)))
        <$> merge_sort Z.le (remove_dups days)).

(** *** Status distribution (lines 131-133) *)

(** [sort_values(ascending=False)] on counts: larger counts first.
    pandas fixes no order among equal counts; nothing below depends on
    it. *)
Definition count_ge {A} (a b : A * nat) : Prop := (b.2 ≤ a.2)%nat.

#[global] Instance count_ge_dec {A} : RelDecision (@count_ge A).
Proof. intros a b. unfold count_ge. apply _. Defined.

Definition by_count_desc {A} (l : list (A * nat)) : list (A * nat) :=
  merge_sort count_ge l.

(** [s.value_counts()]: a categorical column has an entry for every
    category, also with count 0; missing cells are not counted. *)
Definition value_counts (fdf : DataFrame) (c : string) : result (list (value * nat)) :=
  s ← col fdf c;
  let keys := match categories fdf !! c with
              | Some cs => cs
              | None => unique (filter (λ v, v ≠ VNaN) s)
              end in
  Ok (by_count_desc ((λ k, (k, length (filter (λ v, v = k) s))) <$> keys)).

Definition status_counts (fdf : DataFrame) : result (list (value * nat)) :=
  value_counts fdf "status".

(** [df[c].cat.categories]: only a categorical column has [.cat]. *)
Definition cat_categories (df : DataFrame) (c : string) : result (list value) :=
  _ ← col df c;
  match categories df !! c with
  | Some cs => Ok cs
  | None => Raise (AttributeError c)
  end.

(** The x axis of a bar chart under [alt.X(field, sort=order)]: the bars
    of the values listed in [order], in that order, then the others as
    the data has them. *)
Definition axis_sorted {A} (order : list value) (data : list (value * A))
    : list (value * A) :=
  (order ≫= λ k, filter (λ e, e.1 = k) data)
  ++ filter (λ e, e.1 ∉ order) data.

Definition status_bar (df fdf : DataFrame) : result (list (value * nat)) :=
  counts ← status_counts fdf;
  order ← cat_categories df "status";
  Ok (axis_sorted order counts).

(** *** Severity mix by course (lines 140-144) *)

Record MixRow := {
  mix_course : value;
  mix_severity : value;
  mix_count : nat
}.

(** [groupby(["course_name","severity"]).size()]: one count for every
    pair of keys. *)
Definition sev_course (fdf : DataFrame) : result (list MixRow) :=
  _ ← col fdf "course_name";
  _ ← col fdf "severity";
  Ok (c ← group_keys fdf "course_name";
      s ← group_keys fdf "severity";
      [{| mix_course := c; mix_severity := s;
          mix_count := length (filter (λ r, cell "course_name" r = c
                                          ∧ cell "severity" r = s) (rows fdf)) |}]).

(** [stack="normalize"]: each bar segment is its count over the sum of
    the counts of its course; with a sum of 0 there is no fraction. *)
Definition course_total (data : list MixRow) (c : value) : nat :=
  sum_list (mix_count <$> filter (λ e, mix_course e = c) data).

Definition stack_normalize (data : list MixRow) : list (MixRow * option Q) :=
  (λ e, let total := course_total data (mix_course e) in
        (e, match total with
            | O => None
            | _ => Some (Z.of_nat (mix_count e) # Pos.of_nat total)
            end)) <$> data.

Definition sev_stack (fdf : DataFrame) : result (list (MixRow * option Q)) :=
  stack_normalize <$> sev_course fdf.

(** *** Age distribution (lines 150-152) *)

(** [pd.cut(x, bins, labels)] with bins closed on the right: the label of
    the bin [(lo, hi]] that holds [x], none outside all bins. *)
Fixpoint cut (lo : Z) (bins : list (Z * string)) (x : Z) : option string :=
  match bins with
  | [] => None
  | (hi, label) :: bins =>
    if decide (lo < x ≤ hi) then Some label else cut hi bins x
  end.

Definition age_labels : list string := ["≤2d"; "3–5d"; "6–10d"; "11–20d"; ">20d"].

Definition age_bins : list (Z * string) := zip [2; 5; 10; 20; 999] age_labels.

Definition cut_age (v : value) : result (option string) :=
  match v with
  | VInt x => Ok (cut (-1) age_bins x)
  | VNaN => Ok None
  | _ => Raise (TypeError "age_days")
  end.

(** [pd.DataFrame({"age_bucket": age_bins}).value_counts()]: a count for
    each of the labels, larger counts first. *)
Definition age_dist (fdf : DataFrame) : result (list (string * nat)) :=
  s ← col fdf "age_days";
  labels ← apply_rows cut_age s;
  Ok (by_count_desc
        ((λ l, (l, length (filter (λ x, x = Some l) labels))) <$> age_labels)).

(** *** The page, top to bottom *)

Record Aggregates := {
  agg_kpi : Kpi;
  agg_sla : nat * list SlaRow;
  agg_created : list (Z * nat);
  agg_status : list (value * nat);
  agg_mix : list (MixRow * option Q);
  agg_age : list (string * nat)
}.

Definition aggregates (df fdf : DataFrame) : result Aggregates :=
  mask ← open_mask fdf;
  k ← kpi fdf;
  sla ← sla_overview fdf mask;
  created ← created_daily fdf;
  st ← status_bar df fdf;
  mix ← sev_stack fdf;
  age ← age_dist fdf;
  Ok {| agg_kpi := k; agg_sla := sla; agg_created := created;
        agg_status := st; agg_mix := mix; agg_age := age |}.

(** Everything from the upload to the charts. *)
Definition page (G : Generator) (clock0 clock1 : Z) (file : option CsvFile)
    (sel : Selection) : result Aggregates :=
  df ← load_data G clock0 clock1 file;
  fdf ← apply_filters sel df;
  aggregates df fdf.

Definition no_selection : Selection :=
  {| course := []; unit_ := []; status := []; severity := []; assignee := [] |}.

(** ** Notions the statements use *)

(** The derived cells of a row agree: the breach flag is the comparison
    of the row's age with its SLA target, both integers. *)
Definition sla_consistent (r : gmap string value) : Prop :=
  ∃ age sla : Z,
    cell "age_days" r = VInt age ∧ cell "sla_days" r = VInt sla
    ∧ cell "sla_breached" r = VBool (bool_decide (sla < age)).

(** The SLA target of a row is the one [sla_map] gives its severity. *)
Definition sla_from_severity (r : gmap string value) : Prop :=
  ∃ sev sla, cell "severity" r = VStr sev ∧ sla_map !! sev = Some sla
    ∧ cell "sla_days" r = VInt sla.

(** What lines 59-64 make of one row. *)
Definition derive_row (now : Z) (r : gmap string value) : gmap string value :=
  let r1 := <["status" := as_category (VStr <$> statuses) (cell "status" r)]> r in
  let r2 := <["sla_days" := map_dict sla_map (cell "severity" r1)]> r1 in
  let r3 := <["age_days" := days_since now (cell "created_at" r2)]> r2 in
  <["sla_breached" := gt (cell "age_days" r3) (cell "sla_days" r3)]> r3.

(** Two rows with the same cells. *)
Definition same_cells (r r' : gmap string value) : Prop :=
  ∀ c, cell c r' = cell c r.

(** What the loop of lines 38-57 puts in a row. *)
Definition generated_row (r : gmap string value) : Prop :=
  (∃ sev, r !! "severity" = Some (VStr sev) ∧ sev ∈ severities)
  ∧ (∃ st, r !! "status" = Some (VStr st) ∧ st ∈ statuses)
  ∧ (∃ t, r !! "created_at" = Some (VTime t)).

(** The columns of the synthetic table. *)
Definition example_columns : list string :=
  record_keys ++ ["sla_days"; "age_days"; "sla_breached"].

(** The columns whose cells come from the clock. *)
Definition clock_columns : list string :=
  ["created_at"; "updated_at"; "age_days"; "sla_breached"].

(** A row with its two timestamps moved by [delta]. *)
Definition shift_time (delta : Z) (v : value) : value :=
  match v with VTime t => VTime (t + delta) | _ => v end.

Definition shift_row (delta : Z) (r : gmap string value) : gmap string value :=
  alter (shift_time delta) "updated_at" (alter (shift_time delta) "created_at" r).

(** Two runs that draw the same and differ by a move of the
    timestamps. *)
Definition shift_run {S} (delta : Z)
    (a b : result (list (gmap string value) * S)) : Prop :=
  match a, b with
  | Ok (rs, s), Ok (rs', s') => rs' = shift_row delta <$> rs ∧ s' = s
  | Raise e, Raise e' => e' = e
  | _, _ => False
  end.

(** Two tables that agree outside the clock's columns. *)
Definition same_but_clock (a b : result DataFrame) : Prop :=
  match a, b with
  | Ok a, Ok b =>
    columns a = columns b ∧ categories a = categories b
    ∧ Forall2 (λ r r', ∀ c, c ∉ clock_columns → r !! c = r' !! c) (rows a) (rows b)
  | Raise e, Raise e' => e = e'
  | _, _ => False
  end.

(** A row created at a midnight. *)
Definition midnight_row (r : gmap string value) : Prop :=
  ∃ m, r !! "created_at" = Some (VTime (m * ns_per_day)).

(** Two instants of the same calendar day. *)
Definition same_date (t t' : Z) : Prop := t `div` ns_per_day = t' `div` ns_per_day.

(** Two days to call the generator on. *)
Definition monday : Z := 19723 * ns_per_day + 9 * 3600 * 1000000000.
Definition tuesday : Z := monday + ns_per_day.

(** The labels of [parse_dates] that the header of an upload lacks. *)
Definition missing_dates (file : CsvFile) : list string :=
  filter (λ c, c ∉ header file) ["created_at"; "updated_at"].

(** An upload that brings the derived columns itself; all its issues are
    open. *)
Definition number (z : Z) : field := {| raw := VInt z; stamp := None |}.
Definition flag (b : bool) : field := {| raw := VBool b; stamp := None |}.

Definition derived_upload : CsvFile :=
  {| header := required_columns ++ ["notes"; "sla_days"; "age_days"; "sla_breached"];
     lines := [[text "ISSUE-1"; text "Course 1"; text "Unit 1"; text "ITEM-1";
                text "Quiz"; text "Open"; text "Critical"; text "QA";
                text "Alex"; date "2024-01-01" (19723 * ns_per_day);
                date "2024-01-02" (19724 * ns_per_day);
                text "typo"; number 2; number 3; flag true];
               [text "ISSUE-2"; text "Course 1"; text "Unit 2"; text "ITEM-2";
                text "Video"; text "Open"; text "Low"; text "Author";
                text "Sam"; date "2021-01-01" (18628 * ns_per_day);
                date "2021-01-02" (18629 * ns_per_day);
                text "audio"; number 15; number 1000; flag true]] |}.






(** The bins of the age histogram in the spec's words: at most 2 days,
    3 to 5, 6 to 10, 11 to 20, more than 20. *)
Definition age_bucket (x : Z) : string :=
  if decide (x ≤ 2) then "≤2d"
  else if decide (x ≤ 5) then "3–5d"
  else if decide (x ≤ 10) then "6–10d"
  else if decide (x ≤ 20) then "11–20d"
  else ">20d".

(** The rows the histogram counts under label [l]. *)
Definition counted_in (l : string) (r : gmap string value) : Prop :=
  match cell "age_days" r with
  | VInt a => 0 ≤ a ≤ 999 ∧ age_bucket a = l
  | _ => False
  end.

#[global] Instance counted_in_dec l r : Decision (counted_in l r).
Proof. unfold counted_in. destruct (cell "age_days" r); apply _. Defined.

(** A row the charts can read: a boolean breach flag, a timestamp of
    creation and an integer age. *)
Definition typed_row (r : gmap string value) : Prop :=
  (∃ b, cell "sla_breached" r = VBool b)
  ∧ (∃ t, cell "created_at" r = VTime t)
  ∧ (∃ a, cell "age_days" r = VInt a).

(** The columns the page reads after loading. *)
Definition page_columns : list string :=
  ["course_name"; "unit"; "status"; "severity"; "assignee"; "sla_breached";
   "created_at"; "age_days"].

(** The invariant of a categorical column: its categories are distinct
    and hold every cell that is not missing. *)
Definition cat_ok (df : DataFrame) (c : string) : Prop :=
  ∃ cs, categories df !! c = Some cs ∧ NoDup cs
    ∧ Forall (λ r, cell c r ≠ VNaN → cell c r ∈ cs) (rows df).

(** The table [load_data] makes of [derived_upload]. *)
Definition loaded_upload : DataFrame :=
  match load_data lcg 0 0 (Some derived_upload) with
  | Ok df => df
  | Raise _ => demo_frame
  end.

(** ** Further notions *)

(** The filter columns that have a selection and are not in the frame,
    in the order of lines 81-85. *)
Definition missing_picks (sel : Selection) (df : DataFrame) : list string :=
  (filter (λ p, p.2 ≠ [] ∧ p.1 ∉ columns df) (picks sel)).*1.

(** The frame with the rows that pass the selections. *)
Definition filtered (sel : Selection) (df : DataFrame) : DataFrame :=
  {| columns := columns df; categories := categories df;
     rows := filter (λ r, passes sel r = true) (rows df) |}.

(** A row matches the query: one of the three searched cells contains
    it, letter case aside. *)
Definition hit (q : string) (r : gmap string value) : bool :=
  contains (lower q) (lower (str (cell "issue_id" r)))
  || contains (lower q) (lower (str (cell "notes" r)))
  || contains (lower q) (lower (str (cell "item_id" r))).

#[global] Instance count_ge_total {A} : Total (@count_ge A).
Proof. intros a b. unfold count_ge. lia. Qed.

(** The cells that hold a timestamp. *)
Definition is_time (v : value) : bool :=
  match v with VTime _ => true | _ => false end.

(** The cells of column [c] of an upload as [pd.read_csv] types them
    without date parsing. *)
Definition column_raw (file : CsvFile) (c : string) : list value :=
  raw <$> column_fields file c.

(** The rows whose age lies within the outer edges of the bins. *)
Definition in_bins (r : gmap string value) : Prop :=
  match cell "age_days" r with
  | VInt a => 0 ≤ a ≤ 999
  | _ => False
  end.

#[global] Instance in_bins_dec r : Decision (in_bins r).
Proof. unfold in_bins. destruct (cell "age_days" r); apply _. Defined.

(** [f"ISSUE-{1000+i}"] *)
Definition issue_id (i : nat) : value := VStr ("ISSUE-" +:+ pretty (1000 + i)%nat).

(** [f"Course {i+1}" for i in range(n_courses)] *)
Definition course_names (n_courses : nat) : list string :=
  (λ i, "Course " +:+ pretty (i + 1)%nat) <$> seq 0 n_courses.

(** What the loop draws for a row: a creation midnight at most 39 days
    before [today], an update 0 to 14 days later, a course of the
    list. *)
Definition drawn_row (today : Z) (courses : list string)
    (r : gmap string value) : Prop :=
  ∃ d d' : Z, 0 ≤ d ≤ 39 ∧ 0 ≤ d' ≤ 14
    ∧ cell "created_at" r = VTime (today - timedelta d)
    ∧ cell "updated_at" r = VTime (today - timedelta d + timedelta d')
    ∧ ∃ c, cell "course_name" r = VStr c ∧ c ∈ courses.

(** The same, with the age the table derives from the creation date. *)
Definition dated_row (today now : Z) (courses : list string)
    (r : gmap string value) : Prop :=
  drawn_row today courses r
  ∧ ∃ t, cell "created_at" r = VTime t
      ∧ cell "age_days" r = VInt ((now - t) `div` ns_per_day).


(** An upload as the tokenizer hands it on and the table can hold it:
    the header has a label, every line has as many fields as the header,
    and the labels stay distinct once normalized. *)
Definition well_formed (file : CsvFile) : Prop :=
  header file ≠ []
  ∧ NoDup (normalize_name <$> header file)
  ∧ Forall (λ l, length l = length (header file)) (lines file).

#[global] Instance well_formed_dec file : Decision (well_formed file).
Proof. unfold well_formed. apply _. Defined.


(** An upload that brings the three derived columns itself, with a
    breach flag that does not fit its age and SLA target: 10 days old
    with a target of 2 days, and not marked as breached. *)
Definition stale_upload : CsvFile :=
  {| header := required_columns ++ ["sla_days"; "age_days"; "sla_breached"];
     lines := [[text "ISSUE-1"; text "Course 1"; text "Unit 1"; text "ITEM-1";
                text "Quiz"; text "Open"; text "Critical"; text "QA";
                text "Alex"; date "2024-01-01" (19723 * ns_per_day);
                date "2024-01-02" (19724 * ns_per_day);
                number 2; number 10; flag false]] |}.

(** The table [load_data] makes of [stale_upload]. *)
Definition loaded_stale : DataFrame :=
  match load_data lcg 0 0 (Some stale_upload) with
  | Ok df => df
  | Raise _ => demo_frame
  end.

(** [sla_consistent] as a test. *)
Definition sla_consistentb (r : gmap string value) : bool :=
  match cell "age_days" r, cell "sla_days" r, cell "sla_breached" r with
  | VInt age, VInt sla, VBool b => bool_decide (b = bool_decide (sla < age))
  | _, _, _ => false
  end.
(** ** Facts about masks and filters *)

Lemma keep_fmap {A} (f : A → bool) (l : list A) :
  keep l (f <$> l) = filter (λ x, f x = true) l.
Proof.
  induction l as [|x l IH]; [done|]. cbn [fmap list_fmap keep].
  rewrite filter_cons, IH. destruct (f x); by case_decide.
Qed.

Lemma keep_sublist {A} (l : list A) (mask : list bool) :
  keep l mask `sublist_of` l.
Proof.
  revert mask. induction l as [|x l IH]; intros [|[] mask]; cbn [keep];
    first [apply sublist_nil_l | by constructor].
Qed.

Lemma filter_all {A} (P : A → Prop) `{!∀ x, Decision (P x)} (l : list A) :
  (∀ x, P x) → filter P l = l.
Proof.
  intros HP. induction l as [|x l IH]; [done|].
  by rewrite filter_cons_True, IH.
Qed.

Lemma filter_by_ok c sel df :
  c ∈ columns df →
  filter_by c sel df =
    Ok {| columns := columns df; categories := categories df;
          rows := filter (λ r, passes_one c sel r = true) (rows df) |}.
Proof.
  intros Hc. unfold filter_by, col. destruct sel as [|v sel].
  - cbn. rewrite filter_all by done. by destruct df.
  - rewrite decide_True by done. cbn. unfold getitem_mask, isin.
    by rewrite <- list_fmap_compose, keep_fmap.
Qed.

Lemma passes_within sel r : passes sel r = true ↔ within sel r.
Proof.
  unfold passes, within. rewrite forallb_forall. split.
  - intros H c vs Hin%list_elem_of_In Hne. specialize (H _ Hin). cbn in H.
    destruct vs; [done|]. by apply bool_decide_eq_true in H.
  - intros H [c vs] Hin%list_elem_of_In. cbn. destruct vs as [|v vs]; [done|].
    apply bool_decide_eq_true. by apply H.
Qed.

Lemma apply_filters_ok sel df :
  filter_columns ⊆ columns df →
  apply_filters sel df =
    Ok {| columns := columns df; categories := categories df;
          rows := filter (λ r, passes sel r = true) (rows df) |}.
Proof.
  intros Hcols. unfold apply_filters.
  assert (∀ c, c ∈ filter_columns → c ∈ columns df) as Hc by done.
  repeat (rewrite filter_by_ok by (cbn; apply Hc; unfold filter_columns; set_solver);
          cbn [mbind result_bind columns categories rows]).
  do 2 f_equal. rewrite !list_filter_filter.
  apply list_filter_iff. intros r. unfold passes, picks. cbn.
  rewrite !andb_true_iff. tauto.
Qed.

(** C2: on a frame that has the five filter columns, applying the filters
    returns a frame with at most as many rows; a row is returned exactly
    when it is a row of the input whose cell lies in every selection that
    is not empty, so the selections are ANDed and an empty one does not
    restrict. *)
Theorem apply_filters_selects (sel : Selection) (df : DataFrame) :
  filter_columns ⊆ columns df →
  ∃ fdf, apply_filters sel df = Ok fdf
    ∧ (length (rows fdf) ≤ length (rows df))%nat
    ∧ Forall (within sel) (rows fdf)
    ∧ ∀ r, r ∈ rows fdf ↔ r ∈ rows df ∧ within sel r.
Proof.
  intros Hcols. eexists. split; [by apply apply_filters_ok|]. cbn [rows].
  split; [apply length_filter|]. split.
  - apply Forall_forall. intros r [Hr _]%list_elem_of_filter.
    by apply passes_within.
  - intros r. rewrite list_elem_of_filter, passes_within. tauto.
Qed.

Lemma apply_filters_selects_witness :
  filter_columns ⊆ columns demo_frame ∧
  ∃ fdf, apply_filters demo_selection demo_frame = Ok fdf
    ∧ (length (rows fdf) ≤ length (rows demo_frame))%nat
    ∧ Forall (within demo_selection) (rows fdf)
    ∧ ∀ r, r ∈ rows fdf ↔ r ∈ rows demo_frame ∧ within demo_selection r.
Proof.
  assert (filter_columns ⊆ columns demo_frame) as H
    by (apply (bool_decide_unpack _); vm_compute; exact I).
  split; [exact H | exact (apply_filters_selects demo_selection demo_frame H)].
Defined.

(** ** The search *)

Lemma apply_rows_length {A B} (f : A → result B) l bs :
  apply_rows f l = Ok bs → length bs = length l.
Proof.
  revert bs. induction l as [|x l IH]; intros bs; cbn.
  - by intros [= <-].
  - destruct (f x) as [b|]; [|done]. cbn.
    destruct (apply_rows f l) as [bs'|]; [|done]. cbn.
    intros [= <-]. cbn. f_equal. by apply IH.
Qed.






(** ** Rows under column assignment *)

Lemma zip_with_fmap_same {A B C D} (f : B → C → D) (g : A → B) (h : A → C) l :
  zip_with f (g <$> l) (h <$> l) = (λ x, f (g x) (h x)) <$> l.
Proof. induction l as [|x l IH]; [done|]. cbn. by rewrite IH. Qed.

Lemma zip_with_fmap_r_same {A B C} (f : A → B → C) (g : A → B) l :
  zip_with f l (g <$> l) = (λ x, f x (g x)) <$> l.
Proof. induction l as [|x l IH]; [done|]. cbn. by rewrite IH. Qed.

Lemma cell_insert_eq c v (r : gmap string value) : cell c (<[c := v]> r) = v.
Proof. unfold cell. by rewrite lookup_insert_eq. Qed.

Lemma cell_insert_ne c c' v (r : gmap string value) :
  c ≠ c' → cell c' (<[c := v]> r) = cell c' r.
Proof. intros. unfold cell. by rewrite lookup_insert_ne. Qed.

Lemma cell_insert_same c c' (r : gmap string value) :
  cell c' (<[c := cell c r]> r) = cell c' r.
Proof.
  destruct (decide (c = c')) as [->|].
  - apply cell_insert_eq.
  - by apply cell_insert_ne.
Qed.

Lemma col_ok df c : c ∈ columns df → col df c = Ok (cell c <$> rows df).
Proof. intros. unfold col. by rewrite decide_True. Qed.

Lemma setitem_rows c (g : gmap string value → value) cats df :
  rows (setitem c (g <$> rows df) cats df) = (λ r, <[c := g r]> r) <$> rows df.
Proof. cbn. apply zip_with_fmap_r_same. Qed.

(** ** Drawing *)

Lemma draw_bind_inv {G A B} (m : Draw G A) (f : A → Draw G B) s b s' :
  (m ≫= f) s = Ok (b, s') → ∃ a s1, m s = Ok (a, s1) ∧ f a s1 = Ok (b, s').
Proof.
  unfold mbind, draw_bind. destruct (m s) as [[a s1]|]; [|done]. by eauto.
Qed.

Lemma draw_bind_ok {G A B} (m : Draw G A) (f : A → Draw G B) s a s1 :
  m s = Ok (a, s1) → (m ≫= f) s = f a s1.
Proof. unfold mbind, draw_bind. by intros ->. Qed.

Lemma choice_elem {A} G (a : list A) p s x s' :
  choice G a p s = Ok (x, s') → x ∈ a.
Proof.
  unfold choice. destruct a as [|y a]; [done|].
  destruct (pick G _ p s) as [i s1].
  destruct ((y :: a) !! i) as [z|] eqn:Hi; [|done].
  intros [= <- <-]. by eapply list_elem_of_lookup_2.
Qed.

Lemma choice_total {A} G (a : list A) p s :
  GeneratorOk G → a ≠ [] → ∃ x s', choice G a p s = Ok (x, s').
Proof.
  intros HG Ha. unfold choice. destruct a as [|y a]; [done|].
  pose proof (pick_range G HG (length (y :: a)) p s) as Hi.
  destruct (pick G _ p s) as [i s1]. cbn [fst] in Hi.
  destruct (lookup_lt_is_Some_2 (y :: a) i) as [x Hx]; [cbn in *; lia|].
  rewrite Hx. by eauto.
Qed.

Lemma for_each_Forall {G A B} (f : A → Draw G B) (P : B → Prop) l s bs s' :
  (∀ x s b s', f x s = Ok (b, s') → P b) →
  for_each f l s = Ok (bs, s') → Forall P bs.
Proof.
  intros Hf. revert s bs. induction l as [|x l IH]; intros s bs; cbn [for_each].
  - intros [= <- <-]. constructor.
  - intros (b & s1 & Hb & H)%draw_bind_inv.
    apply draw_bind_inv in H as (bs' & s2 & Hbs & H).
    injection H as <- <-. constructor; eauto.
Qed.

Lemma for_each_total {G A B} (f : A → Draw G B) l s :
  (∀ x s, ∃ b s', f x s = Ok (b, s')) →
  ∃ bs s', for_each f l s = Ok (bs, s') ∧ length bs = length l.
Proof.
  intros Hf. revert s. induction l as [|x l IH]; intros s; cbn [for_each].
  - by exists [], s.
  - destruct (Hf x s) as (b & s1 & Hb). destruct (IH s1) as (bs & s2 & Hbs & Hlen).
    exists (b :: bs), s2. rewrite (draw_bind_ok _ _ _ _ _ Hb).
    rewrite (draw_bind_ok _ _ _ _ _ Hbs). cbn. by rewrite Hlen.
Qed.

(** ** The synthetic table *)

Ltac draw_inv H :=
  repeat (let a := fresh "a" in let s := fresh "s" in let E := fresh "E" in
          apply draw_bind_inv in H as (a & s & E & H)).

Lemma example_row_generated G today courses i s r s' :
  example_row G today courses i s = Ok (r, s') → generated_row r.
Proof.
  unfold example_row. intros H. draw_inv H. injection H as <- <-.
  repeat split.
  - eexists. split; [by simplify_map_eq|]. by eapply choice_elem.
  - eexists. split; [by simplify_map_eq|]. by eapply choice_elem.
  - eexists. by simplify_map_eq.
Qed.

Lemma draw_integers_bind {G B} lo hi (f : Z → Draw G B) s :
  (draw_integers G lo hi ≫= f) s
  = f (integers G lo hi s).1 (integers G lo hi s).2.
Proof.
  unfold mbind, draw_bind, draw_integers. by destruct (integers G lo hi s).
Qed.

Lemma example_row_total G today courses i s :
  GeneratorOk G → courses ≠ [] →
  ∃ r s', example_row G today courses i s = Ok (r, s').
Proof.
  intros HG Hc. unfold example_row.
  repeat first
    [ rewrite draw_integers_bind
    | match goal with
      | |- ∃ r s', (choice G ?a ?p ≫= _) ?s = _ =>
        let x := fresh "x" in let s1 := fresh "s" in let E := fresh "E" in
        destruct (choice_total G a p s HG) as (x & s1 & E);
        [done || (unfold units; done) | rewrite (draw_bind_ok _ _ _ _ _ E)]
      end ].
  by eauto.
Qed.

Ltac by_compute := apply (bool_decide_unpack _); vm_compute; exact I.

Ltac decide_columns :=
  repeat first
    [ rewrite decide_True by by_compute
    | rewrite decide_False by by_compute ].

Lemma DataFrame_eq (a b : DataFrame) :
  columns a = columns b → categories a = categories b → rows a = rows b → a = b.
Proof. destruct a, b. cbn. by intros -> -> ->. Qed.

Lemma setitem_rows_col c c' (g : value → value) cats df :
  rows (setitem c (g <$> (cell c' <$> rows df)) cats df)
  = (λ r, <[c := g (cell c' r)]> r) <$> rows df.
Proof. rewrite <- list_fmap_compose. apply setitem_rows. Qed.

Lemma derive_ok now recs :
  recs ≠ [] →
  derive now (from_records record_keys recs)
  = Ok {| columns := example_columns;
          categories := {["status" := VStr <$> statuses]};
          rows := derive_row now <$> recs |}.
Proof.
  intros Hne. destruct recs as [|r0 recs]; [done|]. clear Hne.
  unfold derive, col.
  do 5 (cbn [columns setitem from_records mbind result_bind app];
        decide_columns).
  f_equal. apply DataFrame_eq.
  - cbn [columns setitem from_records app]. by decide_columns.
  - cbn [categories setitem from_records].
    rewrite !delete_insert_ne by done. by rewrite !delete_empty, insert_empty.
  - rewrite zip_with_fmap_same.
    rewrite (setitem_rows "sla_breached"
               (λ r, gt (cell "age_days" r) (cell "sla_days" r))).
    rewrite !setitem_rows_col. rewrite <- !list_fmap_compose. done.
Qed.

Lemma example_data_ok G clock0 clock1 n_courses n_rows :
  GeneratorOk G → n_courses ≠ 0%nat → n_rows ≠ 0%nat →
  ∃ recs, example_data G clock0 clock1 n_courses n_rows
          = Ok {| columns := example_columns;
                  categories := {["status" := VStr <$> statuses]};
                  rows := derive_row clock1 <$> recs |}
    ∧ length recs = n_rows ∧ Forall generated_row recs.
Proof.
  intros HG Hc Hr. unfold example_data.
  set (courses := _ <$> seq 0 n_courses).
  assert (courses ≠ []) as Hcourses.
  { unfold courses. destruct n_courses; [done|]. by cbn. }
  destruct (for_each_total (example_row G (normalize clock0) courses)
              (seq 0 n_rows) (default_rng G 42)) as (recs & s' & Hrecs & Hlen).
  { intros i s. by apply example_row_total. }
  rewrite length_seq in Hlen.
  exists recs. rewrite Hrecs. cbn [mbind result_bind]. split; [|split].
  - apply derive_ok. destruct recs; [|done]. cbn in Hlen. congruence.
  - done.
  - eapply for_each_Forall; [|exact Hrecs].
    intros i s r s1. apply example_row_generated.
Qed.

Lemma map_dict_Some d s z : d !! s = Some z → map_dict d (VStr s) = VInt z.
Proof. unfold map_dict. by intros ->. Qed.

Ltac cell_inserts :=
  repeat first [rewrite cell_insert_eq | rewrite cell_insert_ne by done].

Lemma derive_row_consistent now r :
  generated_row r → sla_consistent (derive_row now r) ∧ sla_from_severity (derive_row now r).
Proof.
  intros ((sev & Hsev & Hin) & _ & (t & Ht)).
  assert (∃ sla, sla_map !! sev = Some sla) as [sla Hsla].
  { unfold severities in Hin. set_unfold.
    destruct Hin as [->|[->|[->|[->|[]]]]]; by eexists. }
  assert (cell "severity" r = VStr sev) as Hs by (unfold cell; by rewrite Hsev).
  assert (cell "created_at" r = VTime t) as Hc by (unfold cell; by rewrite Ht).
  pose proof (map_dict_Some _ _ _ Hsla) as Hm.
  unfold derive_row. cbn zeta. split.
  - exists ((now - t) `div` ns_per_day), sla. split; [|split]; cell_inserts.
    + by rewrite Hc.
    + by rewrite Hs.
    + by rewrite Hc, Hs, Hm.
  - exists sev, sla. split; [|split; [done|]]; cell_inserts.
    + done.
    + by rewrite Hs.
Qed.

(** ** [load_data] keeps the cells *)

Lemma coerce_category_rows df c :
  Forall2 same_cells (rows df) (rows (coerce_category df c)).
Proof.
  unfold coerce_category. case_decide; [|by apply Forall_Forall2_diag, Forall_true].
  destruct (categories df !! c); [by apply Forall_Forall2_diag, Forall_true|].
  rewrite setitem_rows. apply Forall2_fmap_r, Forall_Forall2_diag, Forall_true.
  intros r k. apply cell_insert_same.
Qed.

Lemma coerce_category_columns df c : columns (coerce_category df c) = columns df.
Proof.
  unfold coerce_category. case_decide; [|done].
  destruct (categories df !! c); [done|]. cbn. by rewrite decide_True.
Qed.

Lemma coerce_categories_rows df cs :
  Forall2 same_cells (rows df) (rows (foldl coerce_category df cs)).
Proof.
  revert df. induction cs as [|c cs IH]; intros df; cbn [foldl].
  - by apply Forall_Forall2_diag, Forall_true.
  - eapply Forall2_trans; [|apply coerce_category_rows|apply IH].
    intros r1 r2 r3 H12 H23 k. by rewrite H23.
Qed.

Lemma coerce_categories_columns df cs :
  columns (foldl coerce_category df cs) = columns df.
Proof.
  revert df. induction cs as [|c cs IH]; intros df; cbn [foldl]; [done|].
  by rewrite IH, coerce_category_columns.
Qed.

(** Renaming keeps the cell of a column whose new label no other column
    gets. *)
Lemma rename_cell f cols c (r : gmap string value) :
  NoDup (f <$> cols) → c ∈ cols →
  cell (f c) (list_to_map ((λ c, (f c, cell c r)) <$> cols)) = cell c r.
Proof.
  intros Hnd Hc. unfold cell at 1.
  erewrite (elem_of_list_to_map_1 _ (f c) (cell c r)); [done| |].
  - by rewrite <- list_fmap_compose.
  - apply list_elem_of_fmap. by exists c.
Qed.

Lemma example_columns_normal : normalize_name <$> example_columns = example_columns.
Proof. by vm_compute. Qed.

Lemma load_example_rows df :
  columns df = example_columns →
  Forall2 (λ r r', ∀ c, c ∈ example_columns → cell c r' = cell c r)
    (rows df) (rows (foldl coerce_category (rename_columns normalize_name df) cat_cols)).
Proof.
  intros Hcols.
  eapply (Forall2_trans (λ r r', ∀ c, c ∈ example_columns → cell c r' = cell c r));
    [| |apply coerce_categories_rows].
  { intros r1 r2 r3 H12 H23 c Hc. rewrite H23. by apply H12. }
  cbn [rows rename_columns]. apply Forall2_fmap_r, Forall_Forall2_diag, Forall_true.
  intros r c Hc. rewrite Hcols.
  assert (normalize_name c = c) as Hn.
  { unfold example_columns, record_keys in Hc. cbn [app] in Hc.
    set_unfold. repeat (destruct Hc as [->|Hc]; [by vm_compute|]). done. }
  rewrite <- Hn at 1. apply rename_cell; [|done].
  rewrite example_columns_normal. by_compute.
Qed.

Lemma coerce_category_keeps df c k cs :
  categories df !! k = Some cs → categories (coerce_category df c) !! k = Some cs.
Proof.
  intros Hk. unfold coerce_category. case_decide; [|done].
  destruct (categories df !! c) eqn:Hc; [done|]. cbn.
  rewrite lookup_insert_ne; [done|]. congruence.
Qed.

Lemma coerce_categories_keeps df cs' k cs :
  categories df !! k = Some cs →
  categories (foldl coerce_category df cs') !! k = Some cs.
Proof.
  revert df. induction cs' as [|c cs' IH]; intros df Hk; cbn [foldl]; [done|].
  by apply IH, coerce_category_keeps.
Qed.

Lemma load_example G clock0 clock1 :
  GeneratorOk G →
  ∃ recs df, load_data G clock0 clock1 None = Ok df
    ∧ length recs = 250%nat ∧ Forall generated_row recs
    ∧ columns df = example_columns
    ∧ categories df !! "status" = Some (VStr <$> statuses)
    ∧ Forall2 (λ r r', ∀ c, c ∈ example_columns →
                 cell c r' = cell c (derive_row clock1 r)) recs (rows df).
Proof.
  intros HG. unfold load_data.
  destruct (example_data_ok G clock0 clock1 3 250 HG) as (recs & -> & Hlen & Hgen);
    [done..|].
  exists recs. eexists. split; [done|]. split; [done|]. split; [done|].
  set (df0 := {| columns := example_columns |}). split; [|split].
  - rewrite coerce_categories_columns. cbn. apply example_columns_normal.
  - apply coerce_categories_keeps. by vm_compute.
  - pose proof (load_example_rows df0 eq_refl) as H. cbn [rows df0] in H.
    by apply Forall2_fmap_l in H.
Qed.

(** X21: the table [load_data] returns when nothing is uploaded has 250
    rows, and in each of them [sla_breached] is true exactly when
    [age_days] is greater than [sla_days], whatever the severity. *)
Theorem sla_breached_iff_age_exceeds_sla (G : Generator) (clock0 clock1 : Z) :
  GeneratorOk G →
  ∃ df, load_data G clock0 clock1 None = Ok df
    ∧ length (rows df) = 250%nat
    ∧ Forall sla_consistent (rows df).
Proof.
  intros HG. destruct (load_example G clock0 clock1 HG)
    as (recs & df & Hload & Hlen & Hgen & Hcols & _ & Hrows).
  exists df. split; [done|]. split.
  - by rewrite <- (Forall2_length _ _ _ Hrows).
  - eapply Forall2_Forall_r; [exact Hrows|].
    eapply Forall_impl; [exact Hgen|]. intros r Hr r' Hc.
    destruct (derive_row_consistent clock1 r Hr) as [(age & sla & Ha & Hs & Hb) _].
    exists age, sla. rewrite !Hc by by_compute. done.
Qed.

Lemma lcg_ok : GeneratorOk lcg.
Proof.
  split.
  - intros lo hi s Hlt. cbn. pose proof (Z.mod_pos_bound s (hi - lo)). lia.
  - intros n p s Hn. cbn. pose proof (Z.mod_pos_bound s (Z.of_nat n)). lia.
Qed.

Lemma sla_breached_iff_age_exceeds_sla_witness :
  ∃ df, load_data lcg 1700000000000000000 1700000000000000001 None = Ok df
    ∧ length (rows df) = 250%nat
    ∧ Forall sla_consistent (rows df).
Proof.
  exact (sla_breached_iff_age_exceeds_sla lcg _ _ lcg_ok).
Defined.

(** ** The synthetic table and the clock *)

Lemma draw_bind_fmap {G A B} (F : B * rng G → B * rng G) (m : Draw G A)
    (f1 f2 : A → Draw G B) s :
  (∀ a s1, f2 a s1 = F <$> f1 a s1) → (m ≫= f2) s = F <$> (m ≫= f1) s.
Proof.
  intros Hf. unfold mbind, draw_bind. destruct (m s) as [[a s1]|]; [|done].
  apply Hf.
Qed.

Lemma example_row_shift G t1 t2 courses i s :
  example_row G t2 courses i s
  = (λ p, (shift_row (t2 - t1) p.1, p.2)) <$> example_row G t1 courses i s.
Proof.
  unfold example_row.
  do 13 (apply draw_bind_fmap; intros ? ?; cbn zeta).
  cbv [mret draw_ret fmap result_fmap fst snd]. do 2 f_equal.
  unfold shift_row. cbn [list_to_map foldr fst snd].
  repeat first [ rewrite alter_insert_ne by done | rewrite alter_insert_eq
               | rewrite alter_empty ].
  cbn [shift_time].
  match goal with
  | |- context [VTime (?x - timedelta ?a + (?y - ?x))] =>
    replace (x - timedelta a + (y - x)) with (y - timedelta a) by lia
  end.
  match goal with
  | |- context [VTime (?x - timedelta ?a + timedelta ?b + (?y - ?x))] =>
    replace (x - timedelta a + timedelta b + (y - x))
      with (y - timedelta a + timedelta b) by lia
  end.
  done.
Qed.

Lemma for_each_shift G t1 t2 courses l s :
  shift_run (t2 - t1) (for_each (example_row G t1 courses) l s)
                      (for_each (example_row G t2 courses) l s).
Proof.
  revert s. induction l as [|i l IH]; intros s; cbn [for_each].
  - by cbn.
  - unfold mbind at 1 3, draw_bind. rewrite (example_row_shift G t1 t2).
    destruct (example_row G t1 courses i s) as [[r s1]|]; [|done]. cbn.
    specialize (IH s1). unfold shift_run in IH. unfold mbind, draw_bind.
    destruct (for_each (example_row G t1 courses) l s1) as [[rs s2]|],
             (for_each (example_row G t2 courses) l s1) as [[rs' s2']|];
      try done.
    destruct IH as [-> ->]. by cbn.
Qed.

Lemma shift_row_lookup_ne delta r c :
  c ≠ "created_at" → c ≠ "updated_at" → shift_row delta r !! c = r !! c.
Proof. intros. unfold shift_row. by rewrite !lookup_alter_ne. Qed.

Lemma derive_row_shift now now' delta r c :
  c ∉ clock_columns →
  derive_row now r !! c = derive_row now' (shift_row delta r) !! c.
Proof.
  intros Hc. unfold clock_columns in Hc.
  assert (c ≠ "created_at" ∧ c ≠ "updated_at" ∧ c ≠ "age_days"
          ∧ c ≠ "sla_breached") as (? & ? & ? & ?) by set_solver.
  assert (∀ k, k ≠ "created_at" → k ≠ "updated_at" →
            cell k (shift_row delta r) = cell k r) as Hcell.
  { intros k ??. unfold cell. by rewrite shift_row_lookup_ne. }
  unfold derive_row. cbn zeta.
  rewrite !(lookup_insert_ne _ "sla_breached"), !(lookup_insert_ne _ "age_days") by done.
  destruct (decide (c = "sla_days")) as [->|].
  { rewrite !lookup_insert_eq. cell_inserts. by rewrite Hcell. }
  rewrite !(lookup_insert_ne _ "sla_days") by done.
  destruct (decide (c = "status")) as [->|].
  { rewrite !lookup_insert_eq. by rewrite Hcell. }
  rewrite !(lookup_insert_ne _ "status") by done.
  by rewrite shift_row_lookup_ne.
Qed.

Lemma example_data_same_but_clock G c0 c1 c0' c1' n_courses n_rows :
  same_but_clock (example_data G c0 c1 n_courses n_rows)
                 (example_data G c0' c1' n_courses n_rows).
Proof.
  unfold example_data. cbn zeta.
  set (courses := _ <$> seq 0 n_courses).
  pose proof (for_each_shift G (normalize c0) (normalize c0') courses
                (seq 0 n_rows) (default_rng G 42)) as H.
  unfold shift_run in H.
  destruct (for_each (example_row G (normalize c0) courses) _ _) as [[rs s]|],
           (for_each (example_row G (normalize c0') courses) _ _) as [[rs' s']|];
    try done.
  destruct H as [-> ->]. cbn [mbind result_bind].
  destruct rs as [|r rs]; [done|].
  rewrite !derive_ok by done. cbn [same_but_clock columns categories rows].
  split; [done|]. split; [done|].
  rewrite <- list_fmap_compose. apply Forall2_fmap, Forall_Forall2_diag, Forall_true.
  intros r0 c Hc. by apply derive_row_shift.
Qed.

Lemma normalize_midnight t : normalize t = t `div` ns_per_day * ns_per_day.
Proof.
  unfold normalize. pose proof (Z.div_mod t ns_per_day). unfold ns_per_day in *. lia.
Qed.

Lemma example_row_midnight G t courses i s r s' :
  example_row G (normalize t) courses i s = Ok (r, s') → midnight_row r.
Proof.
  unfold example_row. intros H. draw_inv H. injection H as <- <-.
  exists (t `div` ns_per_day - a). simplify_map_eq. do 2 f_equal.
  rewrite normalize_midnight. unfold timedelta. lia.
Qed.

Lemma derive_row_same_date now now' r :
  same_date now now' → midnight_row r → derive_row now r = derive_row now' r.
Proof.
  intros Hd [m Hm]. unfold derive_row. cbn zeta. cell_inserts.
  assert (cell "created_at" r = VTime (m * ns_per_day)) as ->
    by (unfold cell; by rewrite Hm).
  cbn [days_since]. unfold same_date in Hd.
  replace (now - m * ns_per_day) with (now + (- m) * ns_per_day) by lia.
  replace (now' - m * ns_per_day) with (now' + (- m) * ns_per_day) by lia.
  rewrite !Z.div_add by (by unfold ns_per_day). by rewrite Hd.
Qed.

Lemma example_data_same_date G c0 c1 c0' c1' n_courses n_rows :
  same_date c0 c0' → same_date c1 c1' →
  example_data G c0 c1 n_courses n_rows = example_data G c0' c1' n_courses n_rows.
Proof.
  intros H0 H1. unfold example_data. cbn zeta.
  assert (normalize c0' = normalize c0) as ->
    by (rewrite !normalize_midnight; unfold same_date in H0; by rewrite H0).
  set (courses := _ <$> seq 0 n_courses).
  destruct (for_each (example_row G (normalize c0) courses) _ _)
    as [[rs s]|] eqn:Hrs; [|done].
  cbn [mbind result_bind].
  destruct rs as [|r rs]; [done|]. rewrite !derive_ok by done. do 2 f_equal.
  apply Forall_fmap_ext_1.
  eapply Forall_impl.
  - eapply for_each_Forall; [|exact Hrs]. intros i s0 r0 s1.
    apply example_row_midnight.
  - intros r0 Hr0. by apply derive_row_same_date.
Qed.

Lemma cache_data_again {K V} `{Countable K} (f g : K → result V) cache k v cache' :
  cache_data f cache k = (Ok v, cache') → cache_data g cache' k = (Ok v, cache').
Proof.
  unfold cache_data. destruct (cache !! k) as [w|] eqn:Hk.
  - intros [= <- <-]. by rewrite Hk.
  - destruct (f k) as [w|]; [|done]. intros [= <- <-]. by rewrite lookup_insert_eq.
Qed.

(** C8, as amended: two calls of the generator with the seed 42 and the
    same counts return the same table when the clock shows the same
    calendar day at both calls; on different days the two tables have the
    same columns and categories and agree row by row in every column but
    created_at, updated_at, age_days and sla_breached; and a call that
    finds the table of an earlier call in the cache returns that table. *)
Theorem example_data_repeatable (G : Generator) (c0 c1 c0' c1' : Z)
    (n_courses n_rows : nat) (cache : gmap (nat * nat) DataFrame) :
  (same_date c0 c0' ∧ same_date c1 c1' →
     example_data G c0 c1 n_courses n_rows = example_data G c0' c1' n_courses n_rows)
  ∧ same_but_clock (example_data G c0 c1 n_courses n_rows)
                   (example_data G c0' c1' n_courses n_rows)
  ∧ (∀ df cache',
       example_data_cached G c0 c1 cache n_courses n_rows = (Ok df, cache') →
       example_data_cached G c0' c1' cache' n_courses n_rows = (Ok df, cache')).
Proof.
  split; [|split].
  - intros [H0 H1]. by apply example_data_same_date.
  - apply example_data_same_but_clock.
  - intros df cache'. apply cache_data_again.
Qed.

(** C8, as stated, fails: two calls with the seed 42, 3 courses and 250
    rows, each starting from an empty cache, one on a Monday and one on
    the Tuesday after, return different tables. *)
Lemma example_data_differs_next_day :
  (example_data_cached lcg monday monday ∅ 3 250).1
  ≠ (example_data_cached lcg tuesday tuesday ∅ 3 250).1.
Proof.
  intros H.
  apply (f_equal (λ t, match t with
                       | Ok df => cell "created_at" <$> head (rows df)
                       | Raise _ => None
                       end)) in H.
  vm_compute in H. discriminate H.
Qed.

(** The same holds for every generator: with at least one course and one
    row, the tables of two different days differ. *)
Lemma example_data_differs_across_days G c0 c1 c0' c1' n_courses n_rows :
  GeneratorOk G → n_courses ≠ 0%nat → n_rows ≠ 0%nat → ¬ same_date c0 c0' →
  example_data G c0 c1 n_courses n_rows ≠ example_data G c0' c1' n_courses n_rows.
Proof.
  intros HG Hc Hr Hdate. unfold example_data. cbn zeta.
  set (courses := _ <$> seq 0 n_courses).
  assert (courses ≠ []) as Hcourses.
  { unfold courses. destruct n_courses; [done|]. by cbn. }
  pose proof (for_each_shift G (normalize c0) (normalize c0') courses
                (seq 0 n_rows) (default_rng G 42)) as H.
  unfold shift_run in H.
  destruct (for_each_total (example_row G (normalize c0) courses)
              (seq 0 n_rows) (default_rng G 42)) as (rs & s & Hrs & Hlen).
  { intros i s. by apply example_row_total. }
  rewrite length_seq in Hlen. rewrite Hrs in *.
  destruct (for_each (example_row G (normalize c0') courses) _ _) as [[rs' s']|];
    [|done].
  destruct H as [-> ->]. cbn [mbind result_bind].
  destruct rs as [|r rs]; [cbn in Hlen; congruence|]. rewrite !derive_ok by done.
  intros [= Hrows _].
  eapply for_each_Forall in Hrs; [|intros ????; apply example_row_generated].
  apply Forall_cons in Hrs as [(_ & _ & t & Ht) _].
  apply (f_equal (λ m, m !! "created_at")) in Hrows. revert Hrows.
  unfold derive_row. cbn zeta. rewrite !lookup_insert_ne by done.
  unfold shift_row. rewrite lookup_alter_ne, lookup_alter_eq, Ht by done.
  cbn. intros [= Hz]. apply Hdate. unfold same_date.
  assert (normalize c0 = normalize c0') as Hn by lia.
  rewrite !normalize_midnight in Hn. unfold ns_per_day in *. lia.
Qed.

(** ** Uploads *)

Lemma parse_date_column_shape file df c :
  c ∈ columns df → length (rows df) = length (lines file) →
  columns (parse_date_column file df c) = columns df
  ∧ length (rows (parse_date_column file df c)) = length (lines file).
Proof.
  intros Hc Hlen. unfold parse_date_column.
  destruct (mapM read_date (column_fields file c)) as [ts|] eqn:Hts; [|done].
  cbn. rewrite decide_True by done. split; [done|].
  apply length_mapM in Hts. rewrite length_zip_with.
  unfold column_fields in Hts. rewrite length_fmap in Hts. lia.
Qed.

Lemma read_csv_dates file :
  match read_csv file ["created_at"; "updated_at"] with
  | Raise e => e = ValueError (missing_dates file) ∧ missing_dates file ≠ []
  | Ok df => missing_dates file = [] ∧ columns df = header file
             ∧ length (rows df) = length (lines file)
  end.
Proof.
  unfold read_csv. fold (missing_dates file).
  destruct (missing_dates file) as [|c cs] eqn:Hmiss; [|done].
  split; [done|].
  assert ("created_at" ∈ header file ∧ "updated_at" ∈ header file) as [H1 H2].
  { unfold missing_dates in Hmiss. rewrite !filter_cons, filter_nil in Hmiss.
    repeat case_decide; try done; split; by apply dec_stable. }
  cbn [foldl].
  set (df0 := {| columns := header file |}).
  assert (length (rows df0) = length (lines file)) as Hl0
    by (cbn; by rewrite length_fmap).
  destruct (parse_date_column_shape file df0 "created_at" H1 Hl0) as [Hc1 Hl1].
  assert ("updated_at" ∈ columns (parse_date_column file df0 "created_at"))
    as H2' by (by rewrite Hc1).
  destruct (parse_date_column_shape file _ "updated_at" H2' Hl1) as [Hc2 Hl2].
  by rewrite Hc2, Hc1.
Qed.



(** C3: code and claim part ways on an upload that has the eleven
    required columns and no sla_days: [load_data] returns it with the
    same eleven columns, so no row has an SLA target, an age or a breach
    flag. *)
Theorem upload_gets_no_sla_days (G : Generator) (c0 c1 : Z) :
  ∃ df, load_data G c0 c1 (Some plain_upload) = Ok df
    ∧ columns df = required_columns
    ∧ Forall (λ r, r !! "sla_days" = None ∧ r !! "age_days" = None
                   ∧ r !! "sla_breached" = None) (rows df).
Proof.
  eexists. split; [by vm_compute|]. split; [by vm_compute|].
  repeat constructor; by vm_compute.
Qed.

(** C9: code and claim part ways on the same upload: it loads, the
    filters pass it on unchanged, and the SLA overview raises
    [KeyError] for the column sla_breached. *)
Theorem upload_breaks_sla_overview (G : Generator) (c0 c1 : Z) :
  ∃ df, load_data G c0 c1 (Some plain_upload) = Ok df
    ∧ apply_filters no_selection df = Ok df
    ∧ aggregates df df = Raise (KeyError "sla_breached")
    ∧ page G c0 c1 (Some plain_upload) no_selection = Raise (KeyError "sla_breached").
Proof.
  eexists. split; [by vm_compute|]. repeat split; by vm_compute.
Qed.

(** ** Severity mix by course *)


(** Each element of a list has exactly one key among distinct keys that
    cover the list: the counts by key add up to the length. *)
Lemma count_by_key {A} (key : A → value) (P : A → Prop) `{!∀ x, Decision (P x)}
    (keys : list value) (l : list A) :
  NoDup keys → Forall (λ x, key x ∈ keys) l →
  sum_list ((λ k, length (filter (λ x, P x ∧ key x = k) l)) <$> keys)
  = length (filter P l).
Proof.
  intros Hnd Hl. induction Hl as [|x l Hx Hl IH].
  - clear Hnd. induction keys as [|k keys IHk]; [done|]. exact IHk.
  - assert (∀ ks, NoDup ks →
      sum_list ((λ k, length (filter (λ x, P x ∧ key x = k) (x :: l))) <$> ks)
      = ((if decide (P x ∧ key x ∈ ks) then 1 else 0)
         + sum_list ((λ k, length (filter (λ x, P x ∧ key x = k) l)) <$> ks))%nat)
      as Hsum.
    { clear. intros ks Hnd. induction ks as [|k ks IHk].
      - rewrite decide_False; [done|]. intros [_ Hin]. by apply elem_of_nil in Hin.
      - apply NoDup_cons in Hnd as [Hk Hnd]. cbn [fmap list_fmap sum_list].
        rewrite (IHk Hnd). rewrite filter_cons.
        destruct (decide (P x ∧ key x = k)) as [[HP Hkey]|Hne].
        + rewrite (decide_True (P := P x ∧ key x ∈ k :: ks)) by (split; [done|set_solver]).
          rewrite (decide_False (P := P x ∧ key x ∈ ks)); [cbn [length]; unfold id; lia|].
          intros [_ Hin]. by subst k.
        + destruct (decide (P x ∧ key x ∈ ks)) as [[HP Hin]|Hnin].
          * rewrite (decide_True (P := P x ∧ key x ∈ k :: ks)) by (split; [done|set_solver]).
            cbn [length]; unfold id; lia.
          * rewrite (decide_False (P := P x ∧ key x ∈ k :: ks)); [cbn [length]; unfold id; lia|].
            intros [HP Hin]. apply elem_of_cons in Hin as [Hin|Hin]; tauto. }
    rewrite (Hsum keys Hnd), IH, (filter_cons P). destruct (decide (P x)).
    + rewrite decide_True by done. cbn [length]. unfold id. lia.
    + rewrite decide_False by tauto. lia.
Qed.


Lemma filter_fmap_comm {A B} (f : A → B) (P : B → Prop) `{!∀ y, Decision (P y)}
    (l : list A) :
  filter P (f <$> l) = f <$> filter (λ x, P (f x)) l.
Proof.
  induction l as [|x l IH]; [done|]. cbn [fmap list_fmap].
  rewrite !filter_cons, IH. by case_decide.
Qed.





(** ** Status distribution and age buckets on an upload *)

(** C5: code and claim part ways on an upload whose issues are all
    open: the status column gets the categories seen in the file, so the
    status distribution has the single entry Open and none for In
    Progress, Fixed, Verified and Closed. *)
Theorem upload_status_distribution_lacks_categories (G : Generator) (c0 c1 : Z) :
  ∃ df aggs, load_data G c0 c1 (Some derived_upload) = Ok df
    ∧ categories df !! "status" = Some [VStr "Open"]
    ∧ page G c0 c1 (Some derived_upload) no_selection = Ok aggs
    ∧ agg_status aggs = [(VStr "Open", 2%nat)].
Proof.
  do 2 eexists. split; [by vm_compute|]. split; [by vm_compute|].
  split; by vm_compute.
Qed.

(** C6: code and claim part ways on a row that is 1000 days old: [pd.cut]
    stops at 999, the row gets no bucket, and the histogram counts one
    row where the table has two; the bucket >20d stays at 0. *)
Theorem age_over_999_is_in_no_bucket (G : Generator) (c0 c1 : Z) :
  ∃ df aggs, load_data G c0 c1 (Some derived_upload) = Ok df
    ∧ (cell "age_days" <$> rows df) = [VInt 3; VInt 1000]
    ∧ page G c0 c1 (Some derived_upload) no_selection = Ok aggs
    ∧ agg_age aggs ≡ₚ [("≤2d", 0%nat); ("3–5d", 1%nat); ("6–10d", 0%nat);
                       ("11–20d", 0%nat); (">20d", 0%nat)]
    ∧ cut (-1) age_bins 1000 = None.
Proof.
  do 2 eexists. split; [by vm_compute|]. split; [by vm_compute|].
  split; [by vm_compute|]. split; [|done].
  by_compute.
Qed.

(** What [pd.cut] does between its outer edges is what the spec's bins
    say; outside them it gives no bucket. *)
Lemma cut_age_bucket x :
  cut (-1) age_bins x = if decide (0 ≤ x ≤ 999) then Some (age_bucket x) else None.
Proof.
  unfold age_bins, age_labels, age_bucket. cbn [zip zip_with cut].
  repeat case_decide; try done; lia.
Qed.

Lemma apply_rows_ok {A B} (f : A → result B) (g : A → B) l :
  Forall (λ x, f x = Ok (g x)) l → apply_rows f l = Ok (g <$> l).
Proof.
  induction 1 as [|x l Hx Hl IH]; [done|]. cbn. by rewrite Hx, IH.
Qed.

Lemma age_dist_buckets fdf :
  "age_days" ∈ columns fdf →
  Forall (λ r, ∃ a, cell "age_days" r = VInt a) (rows fdf) →
  ∃ dist, age_dist fdf = Ok dist
    ∧ dist ≡ₚ (λ l, (l, length (filter (counted_in l) (rows fdf)))) <$> age_labels.
Proof.
  intros Hcol Hrows. unfold age_dist. rewrite col_ok by done.
  cbn [mbind result_bind].
  rewrite (apply_rows_ok cut_age
             (λ v, match v with VInt x => cut (-1) age_bins x | _ => None end)).
  2:{ apply Forall_fmap. eapply Forall_impl; [exact Hrows|].
      intros r [a Ha]. cbn. by rewrite Ha. }
  cbn [mbind result_bind]. eexists. split; [done|].
  unfold by_count_desc. rewrite merge_sort_Permutation.
  apply reflexive_eq, list_fmap_ext. intros _ l _. f_equal.
  rewrite <- list_fmap_compose, filter_fmap_comm, length_fmap. f_equal.
  apply list_filter_iff. intros r. unfold counted_in, compose.
  destruct (cell "age_days" r) as [| a | | |]; try done.
  rewrite cut_age_bucket. case_decide; [|naive_solver].
  split; [by intros [= <-]|]. by intros [_ ->].
Qed.

(** ** The status chart on a frame with fixed categories *)

Lemma filter_none {A} (P : A → Prop) `{!∀ x, Decision (P x)} (l : list A) :
  Forall (λ x, ¬ P x) l → filter P l = [].
Proof.
  induction 1 as [|x l Hx Hl IH]; [done|]. by rewrite filter_cons_False.
Qed.

Lemma filter_key_fmap {A} (g : value → A) (keys : list value) k :
  NoDup keys → k ∈ keys →
  filter (λ e, e.1 = k) ((λ k, (k, g k)) <$> keys) = [(k, g k)].
Proof.
  intros Hnd Hk. induction keys as [|k' keys IH]; [by apply elem_of_nil in Hk|].
  apply NoDup_cons in Hnd as [Hnotin Hnd]. cbn [fmap list_fmap].
  rewrite filter_cons. cbn [fst]. case_decide as Hkk.
  - subst k'. f_equal. apply filter_none, Forall_fmap, Forall_forall.
    intros k' Hk' Heq. cbn in Heq. by subst k'.
  - apply IH; [done|]. apply elem_of_cons in Hk as [->|]; done.
Qed.

Lemma axis_sorted_keys {A} (g : value → A) (keys : list value)
    (data : list (value * A)) :
  NoDup keys → data ≡ₚ (λ k, (k, g k)) <$> keys →
  axis_sorted keys data = (λ k, (k, g k)) <$> keys.
Proof.
  intros Hnd Hperm. unfold axis_sorted.
  assert (filter (λ e, e.1 ∉ keys) data = []) as ->.
  { apply filter_none, Forall_forall. intros e He Hnotin. apply Hnotin.
    rewrite Hperm in He. apply list_elem_of_fmap in He as (k & -> & Hk). done. }
  rewrite app_nil_r.
  assert (∀ k, k ∈ keys → filter (λ e, e.1 = k) data = [(k, g k)]) as Hone.
  { intros k Hk. apply Permutation_singleton_r.
    rewrite Hperm. by rewrite filter_key_fmap. }
  clear Hperm Hnd. induction keys as [|k ks IH]; [done|].
  cbn [mbind list_bind fmap list_fmap].
  rewrite Hone by left. cbn [app]. f_equal. apply IH.
  intros k' Hk'. apply Hone. by right.
Qed.

Lemma status_bar_fixed df fdf cats :
  "status" ∈ columns df → "status" ∈ columns fdf →
  categories df !! "status" = Some cats → categories fdf !! "status" = Some cats →
  NoDup cats →
  status_bar df fdf
  = Ok ((λ k, (k, length (filter (λ r, cell "status" r = k) (rows fdf)))) <$> cats).
Proof.
  intros Hdf Hfdf Hc Hc' Hnd.
  unfold status_bar, status_counts, value_counts, cat_categories.
  rewrite !col_ok by done. rewrite Hc, Hc'. cbn [mbind result_bind]. f_equal.
  apply axis_sorted_keys; [done|]. unfold by_count_desc.
  rewrite merge_sort_Permutation. apply reflexive_eq, list_fmap_ext.
  intros _ k _. f_equal. by rewrite filter_fmap_comm, length_fmap.
Qed.

Lemma status_counts_sum fdf cats :
  NoDup cats → Forall (λ r, cell "status" r ∈ cats) (rows fdf) →
  sum_list ((λ k, length (filter (λ r, cell "status" r = k) (rows fdf))) <$> cats)
  = length (rows fdf).
Proof.
  intros Hnd Hall.
  transitivity (length (filter (λ _, True) (rows fdf)));
    [|by rewrite filter_all].
  rewrite <- (count_by_key (cell "status") (λ _, True) cats (rows fdf)) by done.
  f_equal. apply list_fmap_ext. intros _ k _. f_equal.
  apply list_filter_iff. tauto.
Qed.

(** ** The page on a typed frame *)

Lemma Forall_keep {A} (P : A → Prop) (l : list A) mask :
  Forall P l → Forall P (keep l mask).
Proof.
  intros Hl. apply Forall_forall. intros x Hx.
  apply (proj1 (Forall_forall P l) Hl).
  eapply elem_of_sublist; [exact Hx|apply keep_sublist].
Qed.

Lemma as_bools_ok c (rs : list (gmap string value)) :
  Forall (λ r, ∃ b, cell "sla_breached" r = VBool b) rs →
  ∃ bs, as_bools c (cell "sla_breached" <$> rs) = Ok bs.
Proof.
  intros Hrs. unfold as_bools.
  destruct (mapM_is_Some_2 (λ v, match v with VBool b => Some b | _ => None end)
              (cell "sla_breached" <$> rs)) as [bs ->]; [|by eexists].
  apply Forall_fmap. eapply Forall_impl; [exact Hrs|].
  intros r [b Hb]. cbn. by rewrite Hb.
Qed.

Lemma dt_date_ok c (rs : list (gmap string value)) :
  Forall (λ r, ∃ t, cell "created_at" r = VTime t) rs →
  ∃ ds, dt_date c (cell "created_at" <$> rs) = Ok ds.
Proof.
  intros Hrs. unfold dt_date.
  destruct (mapM_is_Some_2
              (λ v, match v with
                    | VTime t => Some (Some (t `div` ns_per_day))
                    | VNaN => Some None
                    | _ => None
                    end) (cell "created_at" <$> rs)) as [ds ->]; [|by eexists].
  apply Forall_fmap. eapply Forall_impl; [exact Hrs|].
  intros r [t Ht]. cbn. by rewrite Ht.
Qed.

Lemma aggregates_total df fdf cats :
  page_columns ⊆ columns fdf → "status" ∈ columns df →
  categories df !! "status" = Some cats →
  Forall typed_row (rows fdf) →
  ∃ aggs, aggregates df fdf = Ok aggs.
Proof.
  intros Hcols Hst Hcats Hrows.
  assert (∀ c, c ∈ page_columns → c ∈ columns fdf) as Hc by done.
  assert (∀ c, c ∈ page_columns → col fdf c = Ok (cell c <$> rows fdf)) as Hcol
    by (intros c ?; by apply col_ok, Hc).
  unfold aggregates, kpi, sla_overview, open_mask.
  rewrite !Hcol by by_compute. cbn [mbind result_bind].
  destruct (as_bools_ok "sla_breached" (rows fdf)) as [bs ->].
  { eapply Forall_impl; [exact Hrows|]. by intros r (? & _). }
  cbn [mbind result_bind].
  set (mask := isin _ open_values).
  rewrite !(col_ok (getitem_mask fdf mask)) by (apply Hc; by_compute).
  cbn [mbind result_bind].
  destruct (as_bools_ok "sla_breached" (rows (getitem_mask fdf mask))) as [bs' ->].
  { apply Forall_keep. eapply Forall_impl; [exact Hrows|]. by intros r (? & _). }
  cbn [mbind result_bind].
  unfold created_daily. rewrite Hcol by by_compute. cbn [mbind result_bind].
  destruct (dt_date_ok "created_at" (rows fdf)) as [ds ->].
  { eapply Forall_impl; [exact Hrows|]. by intros r (_ & ? & _). }
  cbn [mbind result_bind].
  unfold status_bar, status_counts, value_counts, cat_categories.
  rewrite Hcol by by_compute. rewrite (col_ok df) by done. rewrite Hcats.
  cbn [mbind result_bind].
  unfold sev_stack, sev_course. rewrite !Hcol by by_compute.
  cbn [mbind result_bind fmap result_fmap].
  destruct (age_dist_buckets fdf) as (dist & -> & _).
  { apply Hc. by_compute. }
  { eapply Forall_impl; [exact Hrows|]. by intros r (_ & _ & ?). }
  cbn [mbind result_bind]. by eexists.
Qed.

(** ** The page on the synthetic table *)

Lemma derive_row_typed now r :
  generated_row r →
  typed_row (derive_row now r)
  ∧ cell "status" (derive_row now r) ∈ (VStr <$> statuses).
Proof.
  intros (_ & (st & Hst & Hin) & (t & Ht)).
  assert (cell "status" r = VStr st) as Hs by (unfold cell; by rewrite Hst).
  assert (cell "created_at" r = VTime t) as Hc by (unfold cell; by rewrite Ht).
  assert (VStr st ∈ (VStr <$> statuses)) as Hin'
    by (apply list_elem_of_fmap; by exists st).
  unfold derive_row. cbn zeta. split; [repeat split|]; cell_inserts.
  - unfold gt. repeat case_match; by eexists.
  - by eexists.
  - rewrite Hc. by eexists.
  - rewrite Hs. unfold as_category. by rewrite decide_True.
Qed.

Lemma load_example_typed G c0 c1 :
  GeneratorOk G →
  ∃ df, load_data G c0 c1 None = Ok df
    ∧ columns df = example_columns
    ∧ categories df !! "status" = Some (VStr <$> statuses)
    ∧ Forall (λ r, typed_row r ∧ cell "status" r ∈ (VStr <$> statuses)) (rows df).
Proof.
  intros HG. destruct (load_example G c0 c1 HG)
    as (recs & df & Hload & Hlen & Hgen & Hcols & Hcats & Hrows).
  exists df. repeat split; try done.
  eapply Forall2_Forall_r; [exact Hrows|].
  eapply Forall_impl; [exact Hgen|]. intros r Hr r' Hc.
  destruct (derive_row_typed c1 r Hr) as [(Hb & Ht & Ha) Hs].
  unfold typed_row. rewrite !Hc by by_compute. done.
Qed.

(** X20: On the synthetic table the page is drawn for every selection: the
    filters and the six aggregates return; the status chart has the five
    statuses in their fixed order with counts that add up to the number
    of filtered rows; the age histogram has the five buckets. *)
Theorem synthetic_page_total (G : Generator) (c0 c1 : Z) (sel : Selection) :
  GeneratorOk G →
  ∃ df fdf aggs, load_data G c0 c1 None = Ok df
    ∧ apply_filters sel df = Ok fdf
    ∧ page G c0 c1 None sel = Ok aggs
    ∧ (agg_status aggs).*1 = VStr <$> statuses
    ∧ sum_list (agg_status aggs).*2 = length (rows fdf)
    ∧ agg_age aggs
      ≡ₚ (λ l, (l, length (filter (counted_in l) (rows fdf)))) <$> age_labels.
Proof.
  intros HG. destruct (load_example_typed G c0 c1 HG)
    as (df & Hload & Hcols & Hcats & Hrows).
  assert (filter_columns ⊆ columns df) as Hfc by (rewrite Hcols; by_compute).
  pose proof (apply_filters_ok sel df Hfc) as Hf.
  set (fdf := {| columns := columns df |}) in Hf.
  assert (Forall (λ r, typed_row r ∧ cell "status" r ∈ (VStr <$> statuses))
            (rows fdf)) as Hrows'.
  { apply Forall_forall. intros r [_ Hr]%list_elem_of_filter.
    by apply (proj1 (Forall_forall _ _) Hrows). }
  assert (Forall typed_row (rows fdf)) as Htyped
    by (eapply Forall_impl; [exact Hrows'|]; by intros r [? _]).
  assert ("status" ∈ columns df) as Hst by (rewrite Hcols; by_compute).
  assert (page_columns ⊆ columns fdf) as Hpc by (cbn; rewrite Hcols; by_compute).
  destruct (aggregates_total df fdf _ Hpc Hst Hcats Htyped) as [aggs Haggs].
  exists df, fdf, aggs. split; [done|]. split; [done|].
  split; [unfold page; by rewrite Hload; cbn; rewrite Hf|].
  assert (NoDup (VStr <$> statuses)) as Hnd by by_compute.
  pose proof (status_bar_fixed df fdf _ Hst Hst Hcats Hcats Hnd) as Hbar.
  destruct (age_dist_buckets fdf) as (dist & Hdist & Hperm).
  { cbn. rewrite Hcols. by_compute. }
  { eapply Forall_impl; [exact Htyped|]. by intros r (_ & _ & ?). }
  revert Haggs. unfold aggregates. rewrite Hbar, Hdist.
  clear Hbar. generalize dependent (VStr <$> statuses). intros cats **.
  match goal with H : _ = Ok aggs |- _ => revert H end.
  destruct (open_mask fdf); [|done]. cbn [mbind result_bind].
  destruct (kpi fdf); [|done]. cbn [mbind result_bind].
  destruct (sla_overview fdf _); [|done]. cbn [mbind result_bind].
  destruct (created_daily fdf); [|done]. cbn [mbind result_bind].
  destruct (sev_stack fdf); [|done]. cbn [mbind result_bind].
  intros [= <-]. cbn [agg_status agg_age]. split; [|split; [|done]].
  - by rewrite <- list_fmap_compose, (list_fmap_ext _ id _ (λ _ _ _, eq_refl)),
      list_fmap_id.
  - assert (Forall (λ r, cell "status" r ∈ cats) (rows fdf)) as Hall
      by (eapply Forall_impl; [exact Hrows'|]; by intros r [_ ?]).
    rewrite <- list_fmap_compose.
    by rewrite <- (status_counts_sum fdf cats Hnd Hall).
Qed.

Lemma synthetic_page_total_witness :
  ∃ df fdf aggs, load_data lcg monday monday None = Ok df
    ∧ apply_filters demo_selection df = Ok fdf
    ∧ page lcg monday monday None demo_selection = Ok aggs
    ∧ (agg_status aggs).*1 = VStr <$> statuses
    ∧ sum_list (agg_status aggs).*2 = length (rows fdf)
    ∧ agg_age aggs
      ≡ₚ (λ l, (l, length (filter (counted_in l) (rows fdf)))) <$> age_labels.
Proof. exact (synthetic_page_total lcg monday monday demo_selection lcg_ok). Defined.

(** ** Categorical columns after loading *)

Lemma elem_of_unique l v : v ∈ unique l ↔ v ∈ l.
Proof.
  induction l as [|w l IH]; [done|]. cbn [unique].
  rewrite !elem_of_cons, list_elem_of_filter, IH.
  destruct (decide (v = w)); naive_solver.
Qed.

Lemma NoDup_unique l : NoDup (unique l).
Proof.
  induction l as [|w l IH]; [constructor|]. cbn [unique].
  apply NoDup_cons. split.
  - rewrite list_elem_of_filter. naive_solver.
  - by apply NoDup_filter.
Qed.

Lemma infer_categories_spec s :
  NoDup (infer_categories s)
  ∧ ∀ v, v ∈ infer_categories s ↔ v ∈ s ∧ v ≠ VNaN.
Proof.
  unfold infer_categories.
  set (u := unique (filter (λ v, v ≠ VNaN) s)).
  assert (NoDup u) as Hnd by apply NoDup_unique.
  assert (∀ v, v ∈ u ↔ v ∈ s ∧ v ≠ VNaN) as Hin.
  { intros v. unfold u. rewrite elem_of_unique, list_elem_of_filter. tauto. }
  destruct u as [|v0 u'] eqn:Hu; [done|].
  destruct (forallb (same_kind v0) (v0 :: u')); [|done].
  split.
  - by rewrite merge_sort_Permutation.
  - intros v. by rewrite merge_sort_Permutation.
Qed.

Lemma coerce_category_cat_ok df c :
  c ∈ columns df → categories df !! c = None ∨ cat_ok df c →
  cat_ok (coerce_category df c) c.
Proof.
  intros Hc Hcat. unfold coerce_category. rewrite decide_True by done.
  destruct (categories df !! c) as [cs|] eqn:Hcs.
  - destruct Hcat as [?|Hok]; done.
  - destruct (infer_categories_spec (cell c <$> rows df)) as [Hnd Hin].
    exists (infer_categories (cell c <$> rows df)). split; [|split; [done|]].
    + cbn. by rewrite lookup_insert_eq.
    + rewrite setitem_rows. apply Forall_fmap, Forall_forall. intros r Hr.
      cbn. rewrite cell_insert_eq. intros Hne. apply Hin. split; [|done].
      apply list_elem_of_fmap. by exists r.
Qed.

Lemma coerce_category_cat_ok_other df c c' :
  cat_ok df c' → cat_ok (coerce_category df c) c'.
Proof.
  intros (cs & Hcs & Hnd & Hrows). exists cs.
  split; [by apply coerce_category_keeps|]. split; [done|].
  eapply Forall2_Forall_r; [apply coerce_category_rows|].
  eapply Forall_impl; [exact Hrows|]. intros r Hr r' Hsame.
  by rewrite (Hsame c').
Qed.

Lemma coerce_category_None df c c' :
  c ≠ c' → categories df !! c' = None →
  categories (coerce_category df c) !! c' = None.
Proof.
  intros Hne Hc'. unfold coerce_category. case_decide; [|done].
  destruct (categories df !! c); [done|]. cbn. by rewrite lookup_insert_ne.
Qed.

Lemma coerce_categories_cat_ok df cs c :
  NoDup cs → c ∈ cs → c ∈ columns df →
  (∀ c', c' ∈ cs → categories df !! c' = None ∨ cat_ok df c') →
  cat_ok (foldl coerce_category df cs) c.
Proof.
  revert df. induction cs as [|c0 cs IH]; intros df Hnd Hc Hcol Hinit;
    [by apply elem_of_nil in Hc|].
  apply NoDup_cons in Hnd as [Hc0 Hnd]. cbn [foldl].
  assert (∀ df', cat_ok df' c → cat_ok (foldl coerce_category df' cs) c) as Hkeep.
  { clear. intros df'. revert df'. induction cs as [|c1 cs IH]; intros df' H; [done|].
    cbn [foldl]. by apply IH, coerce_category_cat_ok_other. }
  destruct (decide (c = c0)) as [->|Hne].
  - apply Hkeep, coerce_category_cat_ok; [done|]. apply Hinit. by left.
  - apply IH; [done|set_solver|by rewrite coerce_category_columns|].
    intros c' Hc'. destruct (Hinit c') as [Hnone|Hok]; [by right| |].
    + left. apply coerce_category_None; [|done]. intros ->. done.
    + right. by apply coerce_category_cat_ok_other.
Qed.

Lemma parse_date_column_categories file df c :
  categories df = ∅ → categories (parse_date_column file df c) = ∅.
Proof.
  intros Hc. unfold parse_date_column. destruct (mapM _ _); [|done].
  cbn. by rewrite Hc, delete_empty.
Qed.

Lemma read_csv_categories file dates df :
  read_csv file dates = Ok df → categories df = ∅.
Proof.
  unfold read_csv. destruct (filter _ dates); [|done]. intros [= <-].
  set (df0 := {| columns := header file |}).
  assert (categories df0 = ∅) as H0 by done.
  clearbody df0. revert df0 H0. induction dates as [|c dates IH]; intros df0 H0; [done|].
  cbn [foldl]. by apply IH, parse_date_column_categories.
Qed.

Lemma rename_columns_no_categories f df c :
  categories df = ∅ → categories (rename_columns f df) !! c = None.
Proof.
  intros Hc. cbn [categories rename_columns]. rewrite Hc.
  induction (columns df) as [|c' cols IH]; [done|].
  cbn [omap list_omap]. by rewrite lookup_empty.
Qed.

Lemma as_category_in cats v : as_category cats v ≠ VNaN → as_category cats v ∈ cats.
Proof. unfold as_category. by case_decide. Qed.

Lemma example_data_shape G c0 c1 n_courses n_rows df :
  example_data G c0 c1 n_courses n_rows = Ok df →
  ∃ recs, df = {| columns := example_columns;
                  categories := {["status" := VStr <$> statuses]};
                  rows := derive_row c1 <$> recs |}.
Proof.
  unfold example_data. cbn zeta. destruct (for_each _ _ _) as [[recs s]|]; [|done].
  cbn [mbind result_bind]. destruct recs as [|r recs]; [done|].
  rewrite derive_ok by done. intros [= <-]. by exists (r :: recs).
Qed.

(** Every column [load_data] coerces is categorical afterwards: distinct
    categories that hold every cell that is not missing. *)
Lemma Ok_inj {A} (a b : A) : Ok a = Ok b → a = b.
Proof. by intros [= ->]. Qed.

Lemma load_data_cat_ok G c0 c1 file df c :
  load_data G c0 c1 file = Ok df → c ∈ cat_cols → c ∈ columns df → cat_ok df c.
Proof.
  unfold load_data. intros Hload Hc Hcol.
  destruct file as [f|].
  - destruct (read_csv f _) as [df0|] eqn:Hread; [|done].
    apply Ok_inj in Hload. subst df.
    rewrite coerce_categories_columns in Hcol.
    apply coerce_categories_cat_ok; [by_compute|done|done|].
    intros c' _. left. apply rename_columns_no_categories.
    by eapply read_csv_categories.
  - destruct (example_data G c0 c1 3 250) as [df0|] eqn:Hex; [|done].
    apply Ok_inj in Hload. subst df.
    rewrite coerce_categories_columns in Hcol.
    apply example_data_shape in Hex as [recs ->].
    apply coerce_categories_cat_ok; [by_compute|done|done|].
    intros c' Hc'. destruct (decide (c' = "status")) as [->|Hne].
    + right. exists (VStr <$> statuses). split; [by vm_compute|].
      split; [by_compute|]. cbn [rows rename_columns columns].
      apply Forall_fmap, Forall_fmap, Forall_forall. intros r _. unfold compose.
      change "status" with (normalize_name "status") at 1 2.
      rewrite rename_cell; [|rewrite example_columns_normal; by_compute|by_compute].
      unfold derive_row. cbn zeta. cell_inserts. apply as_category_in.
    + left. cbn [categories rename_columns columns].
      unfold cat_cols in Hc'.
      repeat (apply elem_of_cons in Hc' as [->|Hc']; [try done; by vm_compute|]).
      by apply elem_of_nil in Hc'.
Qed.

(** ** The filtered frame *)

Lemma filter_by_shape c sel df fdf :
  filter_by c sel df = Ok fdf →
  columns fdf = columns df ∧ categories fdf = categories df
  ∧ rows fdf `sublist_of` rows df.
Proof.
  unfold filter_by. destruct sel as [|v sel]; [by intros [= <-]|].
  destruct (col df c) as [s|]; [|done]. cbn. intros [= <-]. cbn.
  repeat split. apply keep_sublist.
Qed.

Lemma apply_filters_shape sel df fdf :
  apply_filters sel df = Ok fdf →
  columns fdf = columns df ∧ categories fdf = categories df
  ∧ rows fdf `sublist_of` rows df.
Proof.
  unfold apply_filters. intros H.
  repeat match type of H with
  | (filter_by ?c ?s ?d ≫= _) = _ =>
    let d' := fresh "d" in let E := fresh "E" in
    destruct (filter_by c s d) as [d'|] eqn:E; [|done];
    cbn [mbind result_bind] in H;
    apply filter_by_shape in E as (? & ? & ?)
  end.
  apply filter_by_shape in H as (? & ? & ?).
  repeat split; try congruence. repeat (etrans; [eassumption|]). done.
Qed.




(** * Further properties of the pipeline *)

(** ** Filters *)

Lemma filter_by_cases c sel df :
  filter_by c sel df =
    if decide (sel ≠ [] ∧ c ∉ columns df) then Raise (KeyError c)
    else Ok {| columns := columns df; categories := categories df;
               rows := filter (λ r, passes_one c sel r = true) (rows df) |}.
Proof.
  destruct (decide (c ∈ columns df)) as [Hc|Hc].
  - rewrite filter_by_ok by done. rewrite decide_False; [done|]. tauto.
  - destruct sel as [|v sel].
    + rewrite decide_False by tauto. cbn. rewrite filter_all by done.
      by destruct df.
    + rewrite decide_True by done. unfold filter_by, col.
      by rewrite decide_False.
Qed.

Lemma apply_filters_eq sel df :
  apply_filters sel df =
    match missing_picks sel df with
    | c :: _ => Raise (KeyError c)
    | [] => Ok (filtered sel df)
    end.
Proof.
  unfold apply_filters, missing_picks, picks.
  rewrite !filter_cons, filter_nil. cbn [fst snd].
  rewrite (filter_by_cases "course_name").
  destruct (decide (course sel ≠ [] ∧ "course_name" ∉ columns df)); [done|].
  cbn [mbind result_bind]. rewrite (filter_by_cases "unit"). cbn [columns].
  destruct (decide (unit_ sel ≠ [] ∧ "unit" ∉ columns df)); [done|].
  cbn [mbind result_bind]. rewrite (filter_by_cases "status"). cbn [columns].
  destruct (decide (status sel ≠ [] ∧ "status" ∉ columns df)); [done|].
  cbn [mbind result_bind]. rewrite (filter_by_cases "severity"). cbn [columns].
  destruct (decide (severity sel ≠ [] ∧ "severity" ∉ columns df)); [done|].
  cbn [mbind result_bind]. rewrite (filter_by_cases "assignee"). cbn [columns].
  destruct (decide (assignee sel ≠ [] ∧ "assignee" ∉ columns df)); [done|].
  cbn [fmap list_fmap categories rows]. unfold filtered. do 2 f_equal.
  rewrite !list_filter_filter. apply list_filter_iff. intros r.
  unfold passes, picks. cbn. rewrite !andb_true_iff. tauto.
Qed.

(** X1: The filters raise [KeyError] for the first column, in the order
    course_name, unit, status, severity, assignee, that has a selection
    and is not in the table; otherwise they return the table with the
    rows that pass every selection. *)
Theorem apply_filters_cases (sel : Selection) (df : DataFrame) :
  apply_filters sel df =
    match missing_picks sel df with
    | c :: _ => Raise (KeyError c)
    | [] => Ok (filtered sel df)
    end.
Proof. apply apply_filters_eq. Qed.

Lemma apply_filters_Ok sel df fdf :
  apply_filters sel df = Ok fdf ↔ missing_picks sel df = [] ∧ fdf = filtered sel df.
Proof.
  rewrite apply_filters_eq. destruct (missing_picks sel df); [|naive_solver].
  split; [by intros [= <-]|by intros [_ ->]].
Qed.

Lemma missing_picks_columns sel df df' :
  columns df' = columns df → missing_picks sel df' = missing_picks sel df.
Proof. unfold missing_picks. by intros ->. Qed.

(** X2: Filtering twice with the same selections changes nothing more: a
    table the filters returned is returned again as it is. *)
Theorem apply_filters_idempotent (sel : Selection) (df fdf : DataFrame) :
  apply_filters sel df = Ok fdf → apply_filters sel fdf = Ok fdf.
Proof.
  intros [Hm ->]%apply_filters_Ok. apply apply_filters_Ok.
  split; [by rewrite (missing_picks_columns sel df)|].
  unfold filtered. cbn [columns categories rows]. do 1 f_equal.
  rewrite list_filter_filter. apply list_filter_iff. tauto.
Qed.

Lemma apply_filters_idempotent_witness :
  apply_filters demo_selection (filtered demo_selection demo_frame)
  = Ok (filtered demo_selection demo_frame).
Proof.
  apply (apply_filters_idempotent demo_selection demo_frame). by vm_compute.
Defined.



Lemma filter_Forall_id {A} (P : A → Prop) `{!∀ x, Decision (P x)} (l : list A) :
  Forall P l → filter P l = l.
Proof.
  induction 1 as [|x l Hx _ IH]; [done|]. by rewrite filter_cons_True, IH.
Qed.

(** X4: A selection that holds every value of its column keeps every row:
    choosing all the values that occur is the same as choosing none. *)
Theorem apply_filters_covering (sel : Selection) (df : DataFrame) :
  filter_columns ⊆ columns df →
  (∀ c vs r, (c, vs) ∈ picks sel → vs ≠ [] → r ∈ rows df → cell c r ∈ vs) →
  apply_filters sel df = Ok df ∧ apply_filters no_selection df = Ok df.
Proof.
  intros Hcols Hall.
  assert (∀ s, missing_picks s df = []) as Hm.
  { intros s. unfold missing_picks, picks. rewrite !filter_cons, filter_nil.
    cbn [fst snd].
    repeat (rewrite decide_False;
              [|intros [_ []]; apply Hcols; unfold filter_columns; set_solver]).
    done. }
  assert (∀ s, (∀ r, r ∈ rows df → passes s r = true) → filtered s df = df) as Hf.
  { intros s Hs. unfold filtered. rewrite filter_Forall_id; [by destruct df|].
    by apply Forall_forall. }
  split; apply apply_filters_Ok; (split; [apply Hm|symmetry; apply Hf]).
  - intros r Hr. unfold passes. apply forallb_forall. intros [c vs] Hin.
    apply list_elem_of_In in Hin. cbn [fst snd]. unfold passes_one.
    destruct (decide (vs = [])) as [->|Hvs]; [done|].
    assert (bool_decide (cell c r ∈ vs) = true) as Hb
      by (apply bool_decide_eq_true; by apply (Hall c)).
    by destruct vs.
  - done.
Qed.

Lemma apply_filters_covering_witness :
  apply_filters
    {| course := []; unit_ := []; severity := [];
       status := [VStr "Open"; VStr "Fixed"; VStr "Closed"]; assignee := [] |}
    demo_frame = Ok demo_frame
  ∧ apply_filters no_selection demo_frame = Ok demo_frame.
Proof.
  apply (apply_filters_covering _ demo_frame); [by_compute|].
  intros c vs r Hp Hvs Hr. revert Hvs.
  repeat (apply elem_of_cons in Hp as [[= -> ->]|Hp]; [try done|]);
    [|by apply elem_of_nil in Hp].
  intros _. revert Hr. unfold demo_frame. cbn [rows].
  intros Hr. repeat (apply elem_of_cons in Hr as [->|Hr]; [by_compute|]).
  by apply elem_of_nil in Hr.
Defined.

(** ** Search *)








Lemma lower_ascii_idemp a : lower_ascii (lower_ascii a) = lower_ascii a.
Proof.
  destruct a as [[] [] [] [] [] [] [] []]; reflexivity.
Qed.

Lemma lower_idemp s : lower (lower s) = lower s.
Proof. induction s as [|a s IH]; [done|]. cbn. by rewrite lower_ascii_idemp, IH. Qed.

Lemma search_hit_ok cols q r :
  search_columns ⊆ cols → search_hit cols (lower q) r = Ok (hit q r).
Proof.
  intros Hcols. unfold search_hit, row_get, hit.
  rewrite !decide_True by (apply Hcols; by_compute).
  cbn [mbind result_bind].
  destruct (contains (lower q) (lower (str (cell "issue_id" r)))); [done|].
  by destruct (contains (lower q) (lower (str (cell "notes" r)))).
Qed.

Lemma search_hits q fdf :
  search_columns ⊆ columns fdf → q ≠ "" →
  ∃ temp, search q fdf = Ok temp
    ∧ rows temp = filter (λ r, hit q r = true) (rows fdf).
Proof.
  intros Hcols Hq. unfold search. destruct q as [|a q]; [done|].
  rewrite (apply_rows_ok _ (hit (String a q))).
  - cbn [mbind result_bind]. eexists. split; [done|]. cbn [rows getitem_mask].
    apply keep_fmap.
  - apply Forall_forall. intros r _. by apply search_hit_ok.
Qed.

(** X5: With a query and the three searched columns in the table, the search
    returns the rows in which issue_id, notes or item_id contains the
    query, letter case aside, and leaves out every other row. *)
Theorem search_returns_hits (q : string) (fdf : DataFrame) :
  search_columns ⊆ columns fdf → q ≠ "" →
  ∃ temp, search q fdf = Ok temp
    ∧ rows temp = filter (λ r, hit q r = true) (rows fdf).
Proof. apply search_hits. Qed.

Lemma search_returns_hits_witness :
  ∃ temp, search "TYPO" demo_frame = Ok temp
    ∧ rows temp = filter (λ r, hit "TYPO" r = true) (rows demo_frame).
Proof.
  apply (search_returns_hits "TYPO" demo_frame); [by_compute|done].
Defined.

Lemma lower_empty s : lower s = "" ↔ s = "".
Proof. by destruct s. Qed.

(** X6: Two queries that differ in letter case only give the same result. *)
Theorem search_ignores_query_case (q q' : string) (fdf : DataFrame) :
  lower q = lower q' → search q fdf = search q' fdf.
Proof.
  intros Hl. unfold search. destruct q as [|a q], q' as [|a' q']; try done.
  by rewrite Hl.
Qed.

Lemma search_ignores_query_case_witness :
  search "Broken Link" demo_frame = search "bROKEN lINK" demo_frame.
Proof. apply search_ignores_query_case. reflexivity. Defined.



(** ** KPI cards *)

Lemma count_true_fmap {A} (f : A → bool) (l : list A) :
  count_true (f <$> l) = length (filter (λ x, f x = true) l).
Proof. unfold count_true. by rewrite filter_fmap_comm, length_fmap. Qed.

Lemma count_true_zip_and_fmap {A} (f g : A → bool) (l : list A) :
  count_true (zip_with andb (f <$> l) (g <$> l))
  = length (filter (λ x, f x = true ∧ g x = true) l).
Proof.
  rewrite zip_with_fmap_same, count_true_fmap. f_equal.
  apply list_filter_iff. intros x. by rewrite andb_true_iff.
Qed.

Lemma length_filter_and_le {A} (P Q : A → Prop) `{!∀ x, Decision (P x)}
    `{!∀ x, Decision (Q x)} (l : list A) :
  (length (filter (λ x, P x ∧ Q x) l) ≤ length (filter Q l))%nat.
Proof.
  induction l as [|x l IH]; [done|]. rewrite !filter_cons.
  repeat case_decide; cbn [length]; unfold id; try lia; tauto.
Qed.

Lemma length_filter_disjoint3 {A} (P Q R : A → Prop) `{!∀ x, Decision (P x)}
    `{!∀ x, Decision (Q x)} `{!∀ x, Decision (R x)} (l : list A) :
  (∀ x, ¬ (P x ∧ Q x)) → (∀ x, ¬ (P x ∧ R x)) → (∀ x, ¬ (Q x ∧ R x)) →
  (length (filter P l) + length (filter Q l) + length (filter R l) ≤ length l)%nat.
Proof.
  intros Hpq Hpr Hqr. induction l as [|x l IH]; [done|]. rewrite !filter_cons.
  pose proof (Hpq x). pose proof (Hpr x). pose proof (Hqr x).
  repeat case_decide; cbn [length]; unfold id; try lia; tauto.
Qed.

(** X8: The four KPI counts of a table are consistent: no more critical open
    issues than open ones, and open, verified and closed issues are
    counted apart, so together they are at most the rows of the table. *)
Theorem kpi_counts_bounded (fdf : DataFrame) (k : Kpi) :
  kpi fdf = Ok k →
  (critical_open k ≤ open_issues k)%nat
  ∧ (open_issues k + verified k + closed k ≤ length (rows fdf))%nat.
Proof.
  unfold kpi, open_mask, col.
  destruct (decide ("status" ∈ columns fdf)); [|done]. cbn [mbind result_bind].
  destruct (decide ("severity" ∈ columns fdf)); [|done]. cbn [mbind result_bind].
  intros [= <-]. cbn [critical_open open_issues verified closed].
  unfold isin, eq_scalar. rewrite <- !list_fmap_compose.
  rewrite count_true_zip_and_fmap, !count_true_fmap. split.
  - apply length_filter_and_le.
  - apply length_filter_disjoint3; intros r; unfold compose;
      rewrite !bool_decide_eq_true; unfold open_values; intros [Ha Hb];
      rewrite ?Hb in Ha; set_solver.
Qed.

Lemma kpi_counts_bounded_witness :
  ∃ k, kpi demo_frame = Ok k
    ∧ (critical_open k ≤ open_issues k)%nat
    ∧ (open_issues k + verified k + closed k ≤ length (rows demo_frame))%nat.
Proof.
  eexists. split; [by vm_compute|].
  apply (kpi_counts_bounded demo_frame). by vm_compute.
Defined.

(** ** SLA overview *)








(** ** Issues created per day *)

Lemma count_partition {K} `{EqDecision K} (keys l : list K) :
  NoDup keys → Forall (λ x, x ∈ keys) l →
  sum_list ((λ k, length (filter (λ x, x = k) l)) <$> keys) = length l.
Proof.
  intros Hnd. revert l. induction Hnd as [|k ks Hk Hnd IH]; intros l Hl.
  - destruct l as [|x l]; [done|]. apply Forall_cons in Hl as [Hx _].
    by apply elem_of_nil in Hx.
  - cbn [fmap list_fmap sum_list_with]. unfold id at 1.
    assert (length l = length (filter (λ x, x = k) l)
                       + length (filter (λ x, ¬ x = k) l))%nat as ->.
    { rewrite <- length_app. symmetry. apply Permutation_length.
      apply filter_app_complement. }
    f_equal. rewrite <- (IH (filter (λ x, ¬ x = k) l)).
    + f_equal. apply list_fmap_ext. intros _ k' Hk'%list_elem_of_lookup_2.
      f_equal. rewrite list_filter_filter. apply list_filter_iff.
      intros x. split; [|tauto]. intros ->. split; [done|]. by intros ->.
    + apply Forall_forall. intros x [Hne Hx]%list_elem_of_filter.
      apply (proj1 (Forall_forall _ _) Hl) in Hx.
      apply elem_of_cons in Hx as [?|?]; done.
Qed.

Lemma StronglySorted_le_lt (l : list Z) :
  StronglySorted Z.le l → NoDup l → StronglySorted Z.lt l.
Proof.
  induction 1 as [|x l Hl IH Hx]; intros Hnd; [constructor|].
  apply NoDup_cons in Hnd as [Hnotin Hnd]. constructor; [by apply IH|].
  apply Forall_forall. intros y Hy.
  pose proof (proj1 (Forall_forall _ _) Hx y Hy).
  assert (x ≠ y) by (by intros ->). lia.
Qed.

Lemma dt_date_dated c s ds :
  dt_date c s = Ok ds → length (omap id ds) = length (filter (λ v, is_time v = true) s).
Proof.
  unfold dt_date. destruct (mapM _ s) as [ds'|] eqn:Hm; [|done]. intros [= <-].
  apply mapM_Some_1 in Hm. induction Hm as [|v d s ds' Hv Hm IH]; [done|].
  rewrite filter_cons. destruct v; try done; injection Hv as <-; cbn; by rewrite IH.
Qed.

(** X10: The daily counts list each day on which an issue was created once,
    the days in increasing order, each with a count of at least one, and
    the counts add up to the number of rows that have a creation
    timestamp. *)
Theorem created_daily_counts (fdf : DataFrame) (daily : list (Z * nat)) :
  created_daily fdf = Ok daily →
  StronglySorted Z.lt daily.*1
  ∧ Forall (λ e, (1 ≤ e.2)%nat) daily
  ∧ sum_list daily.*2
    = length (filter (λ v, is_time v = true) (cell "created_at" <$> rows fdf)).
Proof.
  unfold created_daily, col. case_decide; [|done]. cbn [mbind result_bind].
  destruct (dt_date _ _) as [ds|] eqn:Hds; [|done]. cbn [mbind result_bind].
  intros [= <-]. apply dt_date_dated in Hds. rewrite <- Hds. clear Hds.
  set (days := omap id ds). set (sorted := merge_sort Z.le (remove_dups days)).
  assert (sorted ≡ₚ remove_dups days) as Hperm by apply merge_sort_Permutation.
  assert (NoDup sorted) as Hnd by (rewrite Hperm; apply NoDup_remove_dups).
  assert (∀ d, d ∈ sorted ↔ d ∈ days) as Hin
    by (intros d; by rewrite Hperm, elem_of_remove_dups).
  rewrite <- !list_fmap_compose. split; [|split].
  - rewrite (list_fmap_ext _ id _ (λ _ _ _, eq_refl)), list_fmap_id.
    apply StronglySorted_le_lt; [|done]. apply StronglySorted_merge_sort; apply _.
  - apply Forall_fmap, Forall_forall. intros d Hd%Hin. cbn.
    destruct (filter (λ d', d' = d) days) eqn:Hf; [|cbn; lia].
    by apply (filter_nil_not_elem_of _ _ d) in Hf.
  - apply (count_partition sorted days Hnd). apply Forall_forall.
    intros d. apply Hin.
Qed.

Lemma created_daily_counts_witness :
  ∃ daily, created_daily demo_frame = Ok daily
    ∧ StronglySorted Z.lt daily.*1
    ∧ Forall (λ e, (1 ≤ e.2)%nat) daily
    ∧ sum_list daily.*2
      = length (filter (λ v, is_time v = true)
                  (cell "created_at" <$> rows demo_frame)).
Proof.
  eexists. split; [by vm_compute|].
  apply (created_daily_counts demo_frame). by vm_compute.
Defined.

(** ** Counts by value *)



(** ** What [load_data] keeps of an upload *)

Lemma is_space_lower a : is_space (lower_ascii a) = is_space a.
Proof. destruct a as [[] [] [] [] [] [] [] []]; reflexivity. Qed.

Lemma lstrip_lower s : lstrip (lower s) = lower (lstrip s).
Proof.
  induction s as [|a s IH]; [done|]. cbn [lower lstrip].
  rewrite is_space_lower. by destruct (is_space a).
Qed.

Lemma rstrip_cons a s :
  rstrip (String a s)
  = match rstrip s with
    | EmptyString => if is_space a then EmptyString else String a EmptyString
    | t => String a t
    end.
Proof. reflexivity. Qed.

Lemma rstrip_lower s : rstrip (lower s) = lower (rstrip s).
Proof.
  induction s as [|a s IH]; [done|]. cbn [lower]. rewrite !rstrip_cons, IH.
  destruct (rstrip s); cbn [lower]; [|done].
  rewrite is_space_lower. by destruct (is_space a).
Qed.

Lemma rstrip_idemp s : rstrip (rstrip s) = rstrip s.
Proof.
  induction s as [|a s IH]; [done|]. rewrite rstrip_cons.
  destruct (rstrip s) as [|b t] eqn:Ht.
  - destruct (is_space a) eqn:Ha; [done|]. rewrite rstrip_cons. cbn [rstrip].
    by rewrite Ha.
  - rewrite rstrip_cons, IH. done.
Qed.

Lemma lstrip_cons a s :
  lstrip (String a s) = if is_space a then lstrip s else String a s.
Proof. reflexivity. Qed.

Lemma lstrip_rstrip_lstrip s : lstrip (rstrip (lstrip s)) = rstrip (lstrip s).
Proof.
  induction s as [|a s IH]; [done|]. rewrite lstrip_cons.
  destruct (is_space a) eqn:Ha; [exact IH|]. rewrite rstrip_cons, Ha.
  destruct (rstrip s); by rewrite lstrip_cons, Ha.
Qed.

Lemma strip_idemp s : strip (strip s) = strip s.
Proof. unfold strip. by rewrite lstrip_rstrip_lstrip, rstrip_idemp. Qed.

(** Trimming and lower-casing a label twice is the same as once. *)
Lemma normalize_name_idemp c : normalize_name (normalize_name c) = normalize_name c.
Proof.
  unfold normalize_name, strip.
  by rewrite lstrip_lower, rstrip_lower, lower_idemp, lstrip_rstrip_lstrip, rstrip_idemp.
Qed.

(** X12: Whatever is loaded, every column label of the result is trimmed and
    in lower case, so that a second normalization would change none. *)
Theorem load_data_labels_normal (G : Generator) (c0 c1 : Z)
    (file : option CsvFile) (df : DataFrame) :
  load_data G c0 c1 file = Ok df →
  Forall (λ c, normalize_name c = c) (columns df).
Proof.
  unfold load_data. intros Hload.
  destruct (match file with Some f => _ | None => _ end) as [df0|]; [|done].
  apply Ok_inj in Hload. subst df. rewrite coerce_categories_columns.
  cbn [columns rename_columns]. apply Forall_fmap, Forall_forall.
  intros c _. apply normalize_name_idemp.
Qed.

Lemma load_data_labels_normal_witness :
  Forall (λ c, normalize_name c = c) (columns loaded_upload).
Proof.
  apply (load_data_labels_normal lcg 0 0 (Some derived_upload)). by vm_compute.
Defined.

Lemma read_row_cell (h : list string) (l : list field) c :
  cell c (list_to_map (zip h (raw <$> l)))
  = raw (default empty_field ((list_to_map (zip h l) : gmap string field) !! c)).
Proof.
  unfold cell. revert l. induction h as [|k h IH]; intros [|f l]; try done.
  cbn [zip zip_with fmap list_fmap list_to_map foldr fst snd].
  destruct (decide (k = c)) as [->|Hne].
  - by rewrite !lookup_insert_eq.
  - rewrite !lookup_insert_ne by done. apply IH.
Qed.

Lemma cells_setitem_ne c d s cats df :
  c ≠ d → length s = length (rows df) →
  cell c <$> rows (setitem d s cats df) = cell c <$> rows df.
Proof.
  intros Hne. cbn [rows setitem]. generalize (rows df). clear df.
  intros rs. revert s. induction rs as [|r rs IH]; intros [|v s] Hlen; try done.
  cbn. rewrite cell_insert_ne by done. f_equal. apply IH. by injection Hlen.
Qed.

Lemma cells_setitem_eq c s cats df :
  length s = length (rows df) → cell c <$> rows (setitem c s cats df) = s.
Proof.
  cbn [rows setitem]. generalize (rows df). clear df.
  intros rs. revert s. induction rs as [|r rs IH]; intros [|v s] Hlen; try done.
  cbn. rewrite cell_insert_eq. f_equal. apply IH. by injection Hlen.
Qed.

Lemma parse_date_column_cells file df c d :
  length (rows df) = length (lines file) →
  cell c <$> rows (parse_date_column file df d)
  = if decide (c = d) then
      match mapM read_date (column_fields file d) with
      | Some ts => ts
      | None => cell c <$> rows df
      end
    else cell c <$> rows df.
Proof.
  intros Hlen. unfold parse_date_column.
  destruct (mapM read_date (column_fields file d)) as [ts|] eqn:Hts;
    [|by case_decide].
  apply length_mapM in Hts. unfold column_fields in Hts.
  rewrite length_fmap in Hts.
  case_decide as Hcd.
  - subst d. apply cells_setitem_eq. lia.
  - apply cells_setitem_ne; [done|lia].
Qed.

Lemma rename_columns_cells f df c :
  NoDup (f <$> columns df) → c ∈ columns df →
  cell (f c) <$> rows (rename_columns f df) = cell c <$> rows df.
Proof.
  intros Hnd Hc. cbn [rows rename_columns]. rewrite <- list_fmap_compose.
  apply list_fmap_ext. intros _ r _. cbn. by apply rename_cell.
Qed.

Lemma coerce_categories_cells df cs k :
  cell k <$> rows (foldl coerce_category df cs) = cell k <$> rows df.
Proof.
  pose proof (coerce_categories_rows df cs) as H.
  induction H as [|r r' rs rs' Hr _ IH]; [done|]. cbn. by rewrite (Hr k), IH.
Qed.

Lemma read_csv_cells file df c :
  read_csv file ["created_at"; "updated_at"] = Ok df →
  columns df = header file
  ∧ cell c <$> rows df
    = if decide (c = "created_at" ∨ c = "updated_at") then
        match mapM read_date (column_fields file c) with
        | Some ts => ts
        | None => column_raw file c
        end
      else column_raw file c.
Proof.
  intros Hread. pose proof (read_csv_dates file) as Hshape.
  rewrite Hread in Hshape. destruct Hshape as (Hm & Hcols & _).
  split; [done|]. revert Hread. unfold read_csv. fold (missing_dates file).
  rewrite Hm. intros [= <-]. cbn [foldl].
  set (df0 := {| columns := header file |}).
  assert (length (rows df0) = length (lines file)) as Hl0
    by (cbn; by rewrite length_fmap).
  assert ("created_at" ∈ header file ∧ "updated_at" ∈ header file) as [H1 H2].
  { unfold missing_dates in Hm. rewrite !filter_cons, filter_nil in Hm.
    repeat case_decide; try done; split; by apply dec_stable. }
  destruct (parse_date_column_shape file df0 "created_at" H1 Hl0) as [Hc1 Hl1].
  assert (cell c <$> rows df0 = column_raw file c) as Hraw.
  { unfold column_raw, column_fields. cbn [rows df0].
    rewrite <- !list_fmap_compose. apply list_fmap_ext. intros _ l _.
    apply read_row_cell. }
  rewrite (parse_date_column_cells file _ c "updated_at") by done.
  rewrite (parse_date_column_cells file df0 c "created_at") by done.
  rewrite Hraw.
  destruct (decide (c = "updated_at")) as [->|Hu].
  - rewrite (decide_False (P := "updated_at" = "created_at")) by done.
    by rewrite (decide_True (P := _ ∨ _)) by tauto.
  - destruct (decide (c = "created_at")) as [->|Hc].
    + by rewrite (decide_True (P := _ ∨ _)) by tauto.
    + by rewrite (decide_False (P := _ ∨ _)) by tauto.
Qed.

Lemma load_data_cells G c0 c1 file df c k :
  load_data G c0 c1 (Some file) = Ok df →
  NoDup (normalize_name <$> header file) → c ∈ header file →
  k = normalize_name c →
  cell k <$> rows df
  = if decide (c = "created_at" ∨ c = "updated_at") then
      match mapM read_date (column_fields file c) with
      | Some ts => ts
      | None => column_raw file c
      end
    else column_raw file c.
Proof.
  unfold load_data. intros Hload Hnd Hc ->.
  destruct (read_csv file _) as [df0|] eqn:Hread; [|done].
  apply Ok_inj in Hload. subst df.
  destruct (read_csv_cells file df0 c Hread) as [Hcols <-].
  rewrite coerce_categories_cells.
  apply rename_columns_cells; by rewrite Hcols.
Qed.

(** X13: An upload's cells come through as they were read: in a column other
    than the two date columns every cell of the loaded table is the cell
    [pd.read_csv] produced, so a sla_days column in the file is kept as
    it is; a date column holds the parsed timestamps when every field of
    it parses, and is kept as read when one does not.  (The labels of
    the file must stay distinct once normalized.) *)
Theorem load_data_keeps_cells (G : Generator) (c0 c1 : Z) (file : CsvFile)
    (df : DataFrame) (c : string) :
  load_data G c0 c1 (Some file) = Ok df →
  NoDup (normalize_name <$> header file) → c ∈ header file →
  cell (normalize_name c) <$> rows df
  = if decide (c = "created_at" ∨ c = "updated_at") then
      match mapM read_date (column_fields file c) with
      | Some ts => ts
      | None => column_raw file c
      end
    else column_raw file c.
Proof. intros Hload Hnd Hc. by eapply load_data_cells. Qed.

Lemma load_data_keeps_cells_witness :
  cell (normalize_name "sla_days") <$> rows loaded_upload
  = if decide ("sla_days" = "created_at" ∨ "sla_days" = "updated_at") then
      match mapM read_date (column_fields derived_upload "sla_days") with
      | Some ts => ts
      | None => column_raw derived_upload "sla_days"
      end
    else column_raw derived_upload "sla_days".
Proof.
  apply (load_data_keeps_cells lcg 0 0 derived_upload loaded_upload "sla_days").
  - by vm_compute.
  - by_compute.
  - by_compute.
Defined.

(** ** Categories after loading and filtering *)

(** X14: Every column that [load_data] coerces is categorical in the loaded
    table and stays so under the filters, with the categories of the
    loaded table: they are distinct, hold every cell that is not
    missing, and a category whose rows are filtered out remains. *)
Theorem filtered_columns_categorical (G : Generator) (c0 c1 : Z)
    (file : option CsvFile) (sel : Selection) (df fdf : DataFrame) (c : string) :
  load_data G c0 c1 file = Ok df → apply_filters sel df = Ok fdf →
  c ∈ cat_cols → c ∈ columns df →
  cat_ok df c ∧ cat_ok fdf c ∧ categories fdf !! c = categories df !! c.
Proof.
  intros Hload Hf Hc Hcol.
  pose proof (load_data_cat_ok G c0 c1 file df c Hload Hc Hcol) as Hok.
  destruct (apply_filters_shape _ _ _ Hf) as (_ & Hcats & Hsub).
  split; [done|]. split; [|by rewrite Hcats].
  destruct Hok as (cs & Hcs & Hnd & Hrows). exists cs.
  split; [by rewrite Hcats|]. split; [done|].
  apply Forall_forall. intros r Hr.
  apply (proj1 (Forall_forall _ _) Hrows). by eapply elem_of_sublist.
Qed.

Lemma filtered_columns_categorical_witness :
  cat_ok loaded_upload "severity"
  ∧ cat_ok (filtered demo_selection loaded_upload) "severity"
  ∧ categories (filtered demo_selection loaded_upload) !! "severity"
    = categories loaded_upload !! "severity".
Proof.
  apply (filtered_columns_categorical lcg 0 0 (Some derived_upload)
           demo_selection loaded_upload (filtered demo_selection loaded_upload)).
  - by vm_compute.
  - by vm_compute.
  - by_compute.
  - by_compute.
Defined.

(** ** Age histogram *)

Lemma bucket_counts_sum (rs : list (gmap string value)) :
  sum_list ((λ l, length (filter (counted_in l) rs)) <$> age_labels)
  = length (filter in_bins rs).
Proof.
  induction rs as [|r rs IH]; [done|]. revert IH. unfold age_labels.
  cbn [fmap list_fmap sum_list_with]. rewrite !filter_cons. unfold id.
  intros IH.
  assert (∀ l, counted_in l r ↔ in_bins r ∧ ∀ a, cell "age_days" r = VInt a →
                                               age_bucket a = l) as Hin.
  { intros l. unfold counted_in, in_bins. destruct (cell "age_days" r); try tauto.
    split; [intros [? ?]; split; [done|]; by intros ? [= <-]|].
    intros [? H]. split; [done|]. by apply H. }
  destruct (decide (in_bins r)) as [Hr|Hr].
  - unfold in_bins in Hr. destruct (cell "age_days" r) as [|a| | |] eqn:Ha; try done.
    assert (∀ l, counted_in l r ↔ age_bucket a = l) as Hin'.
    { intros l. rewrite Hin. unfold in_bins. rewrite Ha. split.
      - intros [_ H]. by apply H.
      - intros <-. split; [done|]. by intros ? [= <-]. }
    unfold age_bucket in Hin'.
    destruct (decide (a ≤ 2)), (decide (a ≤ 5)), (decide (a ≤ 10)),
      (decide (a ≤ 20)); try lia;
      repeat (let H := fresh "Hc" in
              case_decide as H; [apply Hin' in H|rewrite Hin' in H]);
      try done; try congruence; cbn [length]; unfold id; lia.
  - repeat (let H := fresh "Hc" in case_decide as H; [apply Hin in H; tauto|]).
    lia.
Qed.

(** X15: On a table whose ages are integers the histogram always has the
    five buckets, each once, larger counts first; a bucket counts the
    rows whose age lies between 0 and 999 and in the bucket's range, so
    the counts add up to the number of rows aged 0 to 999 days: a row
    younger or older than that is counted nowhere. *)
Theorem age_histogram_buckets (fdf : DataFrame) :
  "age_days" ∈ columns fdf →
  Forall (λ r, ∃ a, cell "age_days" r = VInt a) (rows fdf) →
  ∃ dist, age_dist fdf = Ok dist
    ∧ dist ≡ₚ (λ l, (l, length (filter (counted_in l) (rows fdf)))) <$> age_labels
    ∧ Sorted count_ge dist
    ∧ sum_list dist.*2 = length (filter in_bins (rows fdf)).
Proof.
  intros Hcol Hrows. destruct (age_dist_buckets fdf Hcol Hrows) as (dist & Hd & Hp).
  exists dist. split; [done|]. split; [done|]. split.
  - revert Hd. unfold age_dist. destruct (col fdf "age_days"); [|done].
    cbn [mbind result_bind]. destruct (apply_rows cut_age _); [|done].
    cbn [mbind result_bind]. intros [= <-]. apply Sorted_merge_sort. apply _.
  - rewrite Hp, <- list_fmap_compose. apply bucket_counts_sum.
Qed.

Lemma int_ages_check (rs : list (gmap string value)) :
  forallb (λ r, match cell "age_days" r with VInt _ => true | _ => false end) rs = true →
  Forall (λ r, ∃ a, cell "age_days" r = VInt a) rs.
Proof.
  rewrite forallb_forall. intros H. apply Forall_forall.
  intros r Hr%list_elem_of_In. specialize (H r Hr).
  destruct (cell "age_days" r); try done. by eexists.
Qed.

Lemma age_histogram_buckets_witness :
  ∃ dist, age_dist loaded_upload = Ok dist
    ∧ dist ≡ₚ (λ l, (l, length (filter (counted_in l) (rows loaded_upload))))
               <$> age_labels
    ∧ Sorted count_ge dist
    ∧ sum_list dist.*2 = length (filter in_bins (rows loaded_upload)).
Proof.
  apply (age_histogram_buckets loaded_upload); [by_compute|].
  apply int_ages_check. by vm_compute.
Defined.

(** ** The rows of the synthetic table *)

Lemma for_each_Forall2 {G A B} (f : A → Draw G B) (P : A → B → Prop) l s bs s' :
  (∀ x s b s', f x s = Ok (b, s') → P x b) →
  for_each f l s = Ok (bs, s') → Forall2 P l bs.
Proof.
  intros Hf. revert s bs. induction l as [|x l IH]; intros s bs; cbn [for_each].
  - intros [= <- <-]. constructor.
  - intros (b & s1 & Hb & H)%draw_bind_inv.
    apply draw_bind_inv in H as (bs' & s2 & Hbs & H).
    injection H as <- <-. constructor; eauto.
Qed.

Lemma example_data_rows G c0 c1 n_courses n_rows df :
  example_data G c0 c1 n_courses n_rows = Ok df →
  ∃ recs s',
    for_each (example_row G (normalize c0) (course_names n_courses))
      (seq 0 n_rows) (default_rng G 42) = Ok (recs, s')
    ∧ n_rows ≠ 0%nat
    ∧ df = {| columns := example_columns;
              categories := {["status" := VStr <$> statuses]};
              rows := derive_row c1 <$> recs |}.
Proof.
  unfold example_data. cbn zeta. fold (course_names n_courses).
  destruct (for_each _ _ _) as [[recs s]|] eqn:Hrecs; [|done].
  cbn [mbind result_bind]. destruct recs as [|r recs]; [done|].
  rewrite derive_ok by done. intros [= <-]. exists (r :: recs), s.
  split; [done|]. split; [|done]. intros ->. by cbn in Hrecs.
Qed.

Lemma example_row_issue_id G today courses i s r s' :
  example_row G today courses i s = Ok (r, s') → cell "issue_id" r = issue_id i.
Proof.
  unfold example_row. intros H. draw_inv H. injection H as <- <-.
  unfold cell. by simplify_map_eq.
Qed.

Lemma derive_row_cell now r c :
  c ∉ ["status"; "sla_days"; "age_days"; "sla_breached"] →
  cell c (derive_row now r) = cell c r.
Proof.
  intros Hc. unfold derive_row. cbn zeta.
  rewrite !cell_insert_ne; [done|set_solver..].
Qed.

(** X16: The rows of the synthetic table carry the ids ISSUE-1000, ISSUE-1001
    and so on in order, so no two rows share an id. *)
Theorem example_data_issue_ids (G : Generator) (c0 c1 : Z)
    (n_courses n_rows : nat) (df : DataFrame) :
  example_data G c0 c1 n_courses n_rows = Ok df →
  (cell "issue_id" <$> rows df) = issue_id <$> seq 0 n_rows
  ∧ NoDup (cell "issue_id" <$> rows df).
Proof.
  intros (recs & s' & Hrecs & _ & ->)%example_data_rows. cbn [rows].
  assert ((cell "issue_id" <$> (derive_row c1 <$> recs)) = issue_id <$> seq 0 n_rows)
    as Hids.
  { apply (for_each_Forall2 _ (λ i r, cell "issue_id" r = issue_id i)) in Hrecs.
    2:{ intros i s r s1. apply example_row_issue_id. }
    rewrite <- list_fmap_compose.
    induction Hrecs as [|i r ix rs Hr _ IH]; [done|]. cbn [fmap list_fmap].
    rewrite IH. f_equal. cbn. rewrite derive_row_cell by by_compute. done. }
  split; [done|]. rewrite Hids. apply NoDup_fmap_2; [|apply NoDup_seq].
  intros i j Hij. unfold issue_id in Hij.
  assert (∀ a b, VStr a = VStr b → a = b) as Hinj by (by intros ?? [= ->]).
  apply Hinj in Hij. apply (inj (String.append "ISSUE-")) in Hij.
  apply (inj pretty) in Hij. lia.
Qed.

Lemma lcg_example : ∃ df, example_data lcg monday tuesday 3 5 = Ok df.
Proof.
  destruct (example_data_ok lcg monday tuesday 3 5 lcg_ok) as (recs & H & _);
    [done..|]. by eexists.
Qed.

Lemma example_data_issue_ids_witness :
  ∃ df, example_data lcg monday tuesday 3 5 = Ok df
    ∧ (cell "issue_id" <$> rows df) = issue_id <$> seq 0 5
    ∧ NoDup (cell "issue_id" <$> rows df).
Proof.
  destruct lcg_example as [df H]. exists df. split; [exact H|].
  exact (example_data_issue_ids lcg monday tuesday 3 5 df H).
Defined.

Lemma example_row_drawn G today courses i s r s' :
  GeneratorOk G →
  example_row G today courses i s = Ok (r, s') → drawn_row today courses r.
Proof.
  intros HG. unfold example_row. intros H.
  apply draw_bind_inv in H as (d & s1 & Hd & H).
  apply draw_bind_inv in H as (d' & s2 & Hd' & H).
  apply draw_bind_inv in H as (st & s3 & _ & H).
  apply draw_bind_inv in H as (c & s4 & Hc & H).
  draw_inv H. injection H as <- <-.
  unfold draw_integers in Hd, Hd'.
  pose proof (integers_range G HG 0 40 s ltac:(done)) as Hr.
  pose proof (integers_range G HG 0 15 s1 ltac:(done)) as Hr'.
  injection Hd as Hd. injection Hd' as Hd'. rewrite Hd in Hr. rewrite Hd' in Hr'.
  cbn [fst] in Hr, Hr'.
  exists d, d'. split; [lia|]. split; [lia|]. unfold cell.
  split; [by simplify_map_eq|]. split; [by simplify_map_eq|].
  exists c. split; [by simplify_map_eq|]. by eapply choice_elem.
Qed.

(** X17: In the synthetic table every issue is created at a midnight at most
    39 days before the day of the call and updated 0 to 14 days after
    its creation, belongs to one of the courses Course 1 to Course n,
    and has as age the whole days from its creation to the clock. *)
Theorem example_data_dates (G : Generator) (c0 c1 : Z)
    (n_courses n_rows : nat) (df : DataFrame) :
  GeneratorOk G → example_data G c0 c1 n_courses n_rows = Ok df →
  Forall (dated_row (normalize c0) c1 (course_names n_courses)) (rows df).
Proof.
  intros HG (recs & s' & Hrecs & _ & ->)%example_data_rows. cbn [rows].
  apply Forall_fmap. eapply Forall_impl.
  - eapply for_each_Forall; [|exact Hrecs]. intros i s r s1.
    by apply example_row_drawn.
  - intros r (d & d' & Hd & Hd' & Hc & Hu & (c & Hcn & Hin)). cbn. split.
    + exists d, d'. rewrite !derive_row_cell by by_compute. eauto 10.
    + eexists. rewrite derive_row_cell by by_compute. split; [exact Hc|].
      unfold derive_row. cbn zeta. cell_inserts. by rewrite Hc.
Qed.

Lemma example_data_dates_witness :
  ∃ df, example_data lcg monday tuesday 3 5 = Ok df
    ∧ Forall (dated_row (normalize monday) tuesday (course_names 3)) (rows df).
Proof.
  destruct lcg_example as [df H]. exists df. split; [exact H|].
  exact (example_data_dates lcg monday tuesday 3 5 df lcg_ok H).
Defined.

(** X18: In the table [load_data] returns without an upload, the SLA target
    of every row is the one the fixed mapping gives its severity:
    Critical 2, High 5, Medium 10, Low 15. *)
Theorem synthetic_sla_from_severity (G : Generator) (c0 c1 : Z) (df : DataFrame) :
  load_data G c0 c1 None = Ok df →
  Forall sla_from_severity (rows df)
  ∧ sla_map = list_to_map [("Critical", 2); ("High", 5); ("Medium", 10); ("Low", 15)].
Proof.
  intros Hload. split; [|done]. revert Hload. unfold load_data.
  destruct (example_data G c0 c1 3 250) as [df0|] eqn:Hex; [|done].
  intros Hload. apply Ok_inj in Hload. subst df.
  apply example_data_rows in Hex as (recs & s' & Hrecs & _ & ->).
  eapply Forall2_Forall_r; [apply load_example_rows; reflexivity|]. cbn [rows].
  apply Forall_fmap. eapply Forall_impl.
  - eapply for_each_Forall; [|exact Hrecs]. intros i s r s1.
    apply example_row_generated.
  - intros r Hr r' Hcells. cbn in Hcells.
    destruct (derive_row_consistent c1 r Hr) as [_ (sev & sla & Hs & Hm & Hd)].
    exists sev, sla. rewrite !Hcells by by_compute. done.
Qed.

Lemma synthetic_sla_from_severity_witness :
  ∃ df, load_data lcg monday monday None = Ok df
    ∧ Forall sla_from_severity (rows df)
    ∧ sla_map = list_to_map [("Critical", 2); ("High", 5); ("Medium", 10); ("Low", 15)].
Proof.
  destruct (load_example lcg monday monday lcg_ok) as (recs & df & H & _).
  exists df. split; [exact H|].
  exact (synthetic_sla_from_severity lcg monday monday df H).
Defined.

(** ** The generator at the edges *)

Lemma draw_bind_raise {G A B} (m : Draw G A) (f : A → Draw G B) s e :
  m s = Raise e → (m ≫= f) s = Raise e.
Proof. unfold mbind, draw_bind. by intros ->. Qed.

Lemma example_row_no_course G today i s :
  GeneratorOk G → example_row G today [] i s = Raise (ValueError ["a"]).
Proof.
  intros HG. unfold example_row. rewrite draw_integers_bind. cbn zeta.
  rewrite draw_integers_bind.
  destruct (choice_total G statuses (Some status_p)
              (integers G 0 15 (integers G 0 40 s).2).2 HG)
    as (st & s3 & Hst); [done|].
  rewrite (draw_bind_ok _ _ _ _ _ Hst). by apply draw_bind_raise.
Qed.

(** X19: Asked for no row, [example_data] raises [KeyError] for status: the
    frame of zero dicts has no column.  Asked for rows of no course, it
    raises the [ValueError] of [rng.choice] on an empty list. *)
Theorem example_data_empty (G : Generator) (c0 c1 : Z) (n_courses n_rows : nat) :
  GeneratorOk G →
  example_data G c0 c1 n_courses 0 = Raise (KeyError "status")
  ∧ example_data G c0 c1 0 (S n_rows) = Raise (ValueError ["a"]).
Proof.
  intros HG. split; [done|]. unfold example_data. cbn zeta.
  cbn [seq fmap list_fmap for_each].
  rewrite (draw_bind_raise _ _ _ (ValueError ["a"])); [done|].
  by apply example_row_no_course.
Qed.

Lemma example_data_empty_witness :
  example_data lcg monday monday 3 0 = Raise (KeyError "status")
  ∧ example_data lcg monday monday 0 (S 4) = Raise (ValueError ["a"]).
Proof. exact (example_data_empty lcg monday monday 3 4 lcg_ok). Defined.

(** ** Uploads are loaded as they are *)






Lemma sla_consistentb_complete r : sla_consistent r → sla_consistentb r = true.
Proof.
  intros (age & sla & Ha & Hs & Hb). unfold sla_consistentb.
  rewrite Ha, Hs, Hb. by apply bool_decide_eq_true.
Qed.

(** C1: code and claim part ways on an upload that brings the derived
    columns itself: [load_data] derives nothing for an upload and hands
    the file's cells on, so the loaded table has a row that is 10 days
    old with an SLA target of 2 days and a breach flag that is false. *)
Theorem upload_keeps_stale_sla_breached (G : Generator) (c0 c1 : Z) :
  ∃ df, load_data G c0 c1 (Some stale_upload) = Ok df
    ∧ cell "age_days" <$> rows df = [VInt 10]
    ∧ cell "sla_days" <$> rows df = [VInt 2]
    ∧ cell "sla_breached" <$> rows df = [VBool false]
    ∧ ¬ Forall sla_consistent (rows df).
Proof.
  exists loaded_stale. split; [vm_compute; reflexivity|].
  split; [vm_compute; reflexivity|]. split; [vm_compute; reflexivity|].
  split; [vm_compute; reflexivity|]. intros Hall.
  assert (forallb sla_consistentb (rows loaded_stale) = true) as Hb.
  { apply forallb_forall. intros r Hr%list_elem_of_In.
    apply sla_consistentb_complete.
    by apply (proj1 (Forall_forall _ _) Hall). }
  revert Hb. vm_compute. discriminate.
Qed.
